(** * Hadiye service worker (sw.js): offline cache manager

    A shallow embedding of [sw.js]: the install and activate listeners, the
    fetch listener that routes a request to one of three caching strategies,
    and the strategies themselves ([cacheFirst], [networkFirst],
    [staleWhileRevalidate]).

    The host objects the worker talks to are modelled as follows.
    - [caches] (CacheStorage) is an association list from generation name to
      cache, in creation order: [caches.keys()] enumerates it in that order
      and [caches.match] consults the generations in that order.
    - one Cache is a finite map from request URL to the stored response;
      [cache.put] overwrites the entry of its key, except that it rejects a
      response with status 206 and stores nothing then.
    - [fetch] is a function from request URL to either a response (whatever
      its status) or a rejection (transport failure).
    - a handler is run to quiescence: a [cache.put] that the source issues
      without awaiting it, and the background fetch of
      [staleWhileRevalidate], are part of the handler's effect.
    Every store and network call is recorded in an event list, so that the
    statements can speak about which calls a handler makes. *)

From Stdlib Require Import ZArith.
From stdpp Require Import base option list gmap strings.

Local Open Scope Z_scope.

(** ** Data *)

(** A response: its status and its body.  [ok] is [Response.ok]. *)
Record Response : Type := mkResponse {
  status : Z;
  body : string
}.

Definition ok (r : Response) : bool :=
  (200 <=? status r) && (status r <=? 299).

(** A partial-content response (status 206).  The cache store refuses it:
    [cache.put] and [cache.addAll] reject with a TypeError, although
    [Response.ok] is true of it. *)
Definition partial (r : Response) : bool := status r =? 206.

(** What [new URL(request.url)] exposes.  [href] stands for the request URL
    without its fragment: the URL that is fetched and that the cache store
    matches on. *)
Record URL : Type := mkURL {
  href : string;
  protocol : string;
  hostname : string;
  pathname : string
}.

Record Request : Type := mkRequest {
  method : string;
  url : URL;
  mode : string
}.

(** The outcome of [fetch]: the promise resolves with a response or rejects. *)
Inductive FetchResult : Type :=
| Resolved (response : Response)
| Rejected.

(** One generation, and the whole CacheStorage. *)
Abbreviation Cache := (gmap string Response).
Abbreviation Storage := (list (string * gmap string Response)).

(** Observable calls of a handler. *)
Inductive Event : Type :=
| EvOpen (name : string)
| EvKeys
| EvDelete (name : string)
| EvRead (name key : string)
| EvWrite (name key : string)
| EvFetch (key : string)
| EvSkipWaiting
| EvClaim.

Global Instance Response_eq_dec : EqDecision Response.
Proof. solve_decision. Defined.

Global Instance FetchResult_eq_dec : EqDecision FetchResult.
Proof. solve_decision. Defined.

Global Instance Event_eq_dec : EqDecision Event.
Proof. solve_decision. Defined.

(** ** String helpers used by the fetch listener *)

(** [s.startsWith(p)] *)
Definition startsWith (p s : string) : bool := String.prefix p s.

(** [s.includes(p)] *)
Fixpoint includes (p s : string) : bool :=
  String.prefix p s ||
  match s with
  | EmptyString => false
  | String _ s' => includes p s'
  end.

(** [s] ends with [p] *)
Definition endsWith (p s : string) : bool :=
  let n := String.length s in
  let m := String.length p in
  (m <=? n)%nat && String.eqb (String.substring (n - m) m s) p.

(** [pathname.match(/\.(js|css)$/)] as a truth value *)
Definition matchJsCss (s : string) : bool :=
  endsWith ".js" s || endsWith ".css" s.

(** ** The cache store *)

Definition storage_keys (s : Storage) : list string := s.*1.

Fixpoint storage_get (name : string) (s : Storage) : option Cache :=
  match s with
  | [] => None
  | (n, c) :: s' => if String.eqb n name then Some c else storage_get name s'
  end.

Definition storage_has (name : string) (s : Storage) : bool :=
  bool_decide (is_Some (storage_get name s)).

(** [caches.open(name)]: creates the generation, empty and last, if absent. *)
Definition storage_open (name : string) (s : Storage) : Storage :=
  match storage_get name s with
  | Some _ => s
  | None => s ++ [(name, ∅)]
  end.

(** [caches.delete(name)] *)
Fixpoint storage_delete (name : string) (s : Storage) : Storage :=
  match s with
  | [] => []
  | (n, c) :: s' =>
      if String.eqb n name then storage_delete name s'
      else (n, c) :: storage_delete name s'
  end.

(** [cache.put(key, response)] on the generation [name], for a response the
    store accepts; a write through the handle of a generation that is gone
    is dropped. *)
Fixpoint storage_put (name key : string) (r : Response) (s : Storage) : Storage :=
  match s with
  | [] => []
  | (n, c) :: s' =>
      if String.eqb n name then (n, <[key := r]> c) :: s'
      else (n, c) :: storage_put name key r s'
  end.

(** A batch of puts on one generation, in order. *)
Definition put_all (name : string) (s : Storage) (l : list (string * Response)) : Storage :=
  foldl (λ s' kr, storage_put name kr.1 kr.2 s') s l.

(** [caches.match(key)]: the generations are consulted in creation order and
    the first entry found is the answer.  The second component lists the
    generations that were consulted. *)
Fixpoint storage_match (key : string) (s : Storage) : option Response * list Event :=
  match s with
  | [] => (None, [])
  | (n, c) :: s' =>
      match c !! key with
      | Some r => (Some r, [EvRead n key])
      | None =>
          let '(o, t) := storage_match key s' in (o, EvRead n key :: t)
      end
  end.

(** Every generation has one name. *)
Definition wf (s : Storage) : Prop := NoDup (storage_keys s).

(** ** Handlers as state transformers with an event log *)

Definition M (A : Type) : Type := Storage → A * Storage * list Event.

Global Instance M_ret : MRet M := λ A a s, (a, s, []).

Global Instance M_bind : MBind M := λ A B f m s,
  let '(a, s1, t1) := m s in
  let '(b, s2, t2) := f a s1 in
  (b, s2, t1 ++ t2).

Definition result {A} (x : A * Storage * list Event) : A := x.1.1.
Definition store {A} (x : A * Storage * list Event) : Storage := x.1.2.
Definition events {A} (x : A * Storage * list Event) : list Event := x.2.

Definition caches_open (name : string) : M string :=
  λ s, (name, storage_open name s, [EvOpen name]).

Definition caches_keys : M (list string) :=
  λ s, (storage_keys s, s, [EvKeys]).

Definition caches_delete (name : string) : M bool :=
  λ s, (storage_has name s, storage_delete name s, [EvDelete name]).

Definition caches_match (key : string) : M (option Response) :=
  λ s, let '(o, t) := storage_match key s in (o, s, t).

Definition cache_match (cache key : string) : M (option Response) :=
  λ s, (storage_get cache s ≫= λ c, c !! key, s, [EvRead cache key]).

(** [cache.put(key, r)]: the call is recorded; a response with status 206
    makes the promise reject, and the storage is left as it is.  No strategy
    awaits the promise, so the rejection reaches no caller. *)
Definition cache_put (cache key : string) (r : Response) : M unit :=
  λ s, (tt, if partial r then s else storage_put cache key r s,
        [EvWrite cache key]).

Definition skipWaiting : M unit := λ s, (tt, s, [EvSkipWaiting]).
Definition clients_claim : M unit := λ s, (tt, s, [EvClaim]).

Global Instance M_fmap : FMap M := λ A B f m s,
  let '(a, s1, t1) := m s in (f a, s1, t1).

Fixpoint forEach {A} (f : A → M unit) (l : list A) : M unit :=
  match l with
  | [] => mret tt
  | x :: l' => f x;; forEach f l'
  end.

(** ** Constants of sw.js *)

Definition CACHE_NAME : string := "hadiye-v1.0.0".
Definition OFFLINE_URL : string := "/offline.html".

Definition PRECACHE_ASSETS : list string := [
  "/";
  "/index.html";
  "/manifest.json";
  "/css/index.css";
  "/css/cibro.css";
  "/css/quran.css";
  "/css/tasbiix.css";
  "/js/main.js";
  "/js/modules/ramadan.js";
  "/js/modules/cibro.js";
  "/js/modules/quran.js";
  "/js/modules/tasbiix.js";
  "/js/modules/animations.js";
  "/data/surahs.json";
  "/data/reflections.json";
  "https://cdnjs.cloudflare.com/ajax/libs/gsap/3.12.5/gsap.min.js";
  "https://cdnjs.cloudflare.com/ajax/libs/gsap/3.12.5/ScrollTrigger.min.js";
  "https://fonts.googleapis.com/css2?family=Amiri+Quran&family=Scheherazade+New:wght@400;700&family=Inter:wght@300;400;500;600&display=swap"
].

(** [new Response('Offline', { status: 503 })] *)
Definition offlineResponse : Response := mkResponse 503 "Offline".

(** What the fetch listener does with a request.  [PassThrough]: it returns
    without [event.respondWith], and the request takes the browser's default
    network path. *)
Inductive Outcome : Type :=
| PassThrough
| RespondWith (response : option Response).

(** ** The worker, over its environment *)

Section Worker.

(** The network, and the origin the worker is served from: a relative
    URL such as ['/offline.html'] is resolved against it. *)
Variable network : string → FetchResult.
Variable origin : string.

Definition resolve (u : string) : string :=
  if startsWith "/" u then origin +:+ u else u.

Arguments resolve : simpl never.

Definition fetch (key : string) : M FetchResult :=
  λ s, (network key, s, [EvFetch key]).

(** [cache.addAll(urls)]: every URL is fetched; unless every fetch resolves
    with a response whose status is ok and is not 206 the promise rejects
    and nothing is written. *)
Definition accepted (x : FetchResult) : option Response :=
  match x with
  | Resolved r => if ok r && negb (partial r) then Some r else None
  | Rejected => None
  end.

Definition cache_addAll (cache : string) (urls : list string) : M bool :=
  λ s,
    let keys := resolve <$> urls in
    match mapM accepted (network <$> keys) with
    | Some rs =>
        (true,
         put_all cache s (zip keys rs),
         (EvFetch <$> keys) ++ (EvWrite cache <$> keys))
    | None => (false, s, EvFetch <$> keys)
    end.

(** *** Install listener

    [caches.open(name).then(addAll).then(skipWaiting).catch(log)], for a
    version tag [name] and a manifest [assets].  The result says whether
    the promise handed to [event.waitUntil] fulfils: the final [catch]
    only logs, so it always does. *)
Definition precache (name : string) (assets : list string) : M bool :=
  cache ← caches_open name;
  added ← cache_addAll cache assets;
  if added : bool then skipWaiting;; mret true
  else mret true.

Definition install : M bool := precache CACHE_NAME PRECACHE_ASSETS.

(** *** Activate listener *)
Definition activate : M unit :=
  cacheNames ← caches_keys;
  forEach (λ name, caches_delete name;; mret tt)
          (List.filter (λ name, negb (String.eqb name CACHE_NAME)) cacheNames);;
  clients_claim.

(** *** Strategies

    A strategy returns [None] where the JavaScript function resolves with
    [undefined]. *)

(** [if (response.ok) { cache = await caches.open(CACHE_NAME);
    cache.put(request, response.clone()) }] *)
Definition storeIfOk (key : string) (response : Response) : M unit :=
  if ok response then
    cache ← caches_open CACHE_NAME;
    cache_put cache key response
  else mret tt.

Definition cacheFirst (request : Request) : M (option Response) :=
  let key := href (url request) in
  cached ← caches_match key;
  match cached with
  | Some c => mret (Some c)
  | None =>
      fetched ← fetch key;
      match fetched with
      | Resolved response =>
          storeIfOk key response;;
          mret (Some response)
      | Rejected => mret (Some offlineResponse)
      end
  end.

Definition networkFirst (request : Request) : M (option Response) :=
  let key := href (url request) in
  fetched ← fetch key;
  match fetched with
  | Resolved response =>
      storeIfOk key response;;
      mret (Some response)
  | Rejected =>
      cached ← caches_match key;
      match cached with
      | Some c => mret (Some c)
      | None =>
          if String.eqb (mode request) "navigate" then
            offlinePage ← caches_match (resolve OFFLINE_URL);
            match offlinePage with
            | Some p => mret (Some p)
            | None => caches_match (resolve "/")
            end
          else mret (Some offlineResponse)
      end
  end.

Definition staleWhileRevalidate (request : Request) : M (option Response) :=
  let key := href (url request) in
  cache ← caches_open CACHE_NAME;
  cached ← cache_match cache key;
  fetched ← fetch key;
  networkPromise ←
    match fetched with
    | Resolved response =>
        (if ok response then cache_put cache key response else mret tt);;
        mret (Some response)
    | Rejected => mret cached
    end;
  mret (match cached with
        | Some c => Some c
        | None => networkPromise
        end).

(** *** Fetch listener *)
Definition onFetch (request : Request) : M Outcome :=
  let u := url request in
  if negb (String.eqb (method request) "GET") then mret PassThrough
  else if negb (startsWith "http" (protocol u)) then mret PassThrough
  else if startsWith "/data/" (pathname u) then
    RespondWith <$> cacheFirst request
  else if matchJsCss (pathname u) then
    RespondWith <$> staleWhileRevalidate request
  else if includes "fonts.googleapis.com" (hostname u)
          || includes "fonts.gstatic.com" (hostname u)
          || includes "cdnjs.cloudflare.com" (hostname u) then
    RespondWith <$> cacheFirst request
  else
    RespondWith <$> networkFirst request.

End Worker.

(** ** Auxiliary notions for the statements *)

(** The entry of [key] in the generation [name]. *)
Definition entry (name key : string) (s : Storage) : option Response :=
  storage_get name s ≫= λ c, c !! key.

(** The entries a batch of puts leaves in a cache, later puts winning. *)
Fixpoint batch (l : list (string * Response)) : Cache :=
  match l with
  | [] => ∅
  | kr :: l' => batch l' ∪ {[kr.1 := kr.2]}
  end.

(** Rewriting the first generation of a given name. *)
Fixpoint storage_alter (f : Cache → Cache) (name : string) (s : Storage) : Storage :=
  match s with
  | [] => []
  | (n, c) :: s' =>
      if String.eqb n name then (n, f c) :: s'
      else (n, c) :: storage_alter f name s'
  end.

(** Deleting the generations of a list of names, one after the other. *)
Definition delete_all (s : Storage) (l : list string) : Storage :=
  foldl (λ s' n, storage_delete n s') s l.

(** What [caches.match(key)] answers. *)
Definition cached (key : string) (s : Storage) : option Response :=
  (storage_match key s).1.

(** The generation an event reads from, and the generation it creates,
    writes to or deletes. *)
Definition read_from (e : Event) : option string :=
  match e with
  | EvRead n _ => Some n
  | _ => None
  end.

Definition written_to (e : Event) : option string :=
  match e with
  | EvOpen n | EvWrite n _ | EvDelete n => Some n
  | _ => None
  end.

Definition reads (t : list Event) : list string := omap read_from t.
Definition writes (t : list Event) : list string := omap written_to t.

(** The network calls among the events. *)
Definition fetched_from (e : Event) : option string :=
  match e with
  | EvFetch k => Some k
  | _ => None
  end.

Definition fetches (t : list Event) : list string := omap fetched_from t.

(** A precache fetch fails: it is rejected, or resolves with a status that
    [addAll] refuses (a status that is not ok, or 206). *)
Definition precache_fails (network : string → FetchResult) (origin : string)
    (assets : list string) : Prop :=
  ∃ u, u ∈ assets ∧ accepted (network (resolve origin u)) = None.

(** ** Concrete environments *)

Definition site : string := "https://hadiye.test".

(** The network is down. *)
Definition net_down (k : string) : FetchResult := Rejected.

(** Every URL is served. *)
Definition net_up (k : string) : FetchResult := Resolved (mkResponse 200 k).

(** Every URL is answered with partial content. *)
Definition partial_content : Response := mkResponse 206 "partial".

Definition net_206 (k : string) : FetchResult := Resolved partial_content.

(** Every URL is answered with 404. *)
Definition net_404 (k : string) : FetchResult :=
  Resolved (mkResponse 404 "Not Found").

(** A storage left behind by an earlier version of the worker. *)
Definition old_page : Response := mkResponse 200 "<html>v0</html>".

Definition old_storage : Storage :=
  [("hadiye-v0.9.0", {[ "https://hadiye.test/about" := old_page ]})].

(** Requests: a page the user navigates to, a script, a data file that the
    server does not have, a form submission, and a request of a browser
    extension. *)
Definition about_page : Request :=
  mkRequest "GET"
    (mkURL "https://hadiye.test/about" "https:" "hadiye.test" "/about")
    "navigate".

Definition main_script : Request :=
  mkRequest "GET"
    (mkURL "https://hadiye.test/js/main.js" "https:" "hadiye.test" "/js/main.js")
    "no-cors".

Definition missing_data : Request :=
  mkRequest "GET"
    (mkURL "https://hadiye.test/data/missing.json" "https:" "hadiye.test"
       "/data/missing.json")
    "cors".

Definition surahs_data : Request :=
  mkRequest "GET"
    (mkURL "https://hadiye.test/data/surahs.json" "https:" "hadiye.test"
       "/data/surahs.json")
    "cors".

Definition form_post : Request :=
  mkRequest "POST"
    (mkURL "https://hadiye.test/submit" "https:" "hadiye.test" "/submit")
    "cors".

Definition extension_script : Request :=
  mkRequest "GET"
    (mkURL "chrome-extension://abcdef/content.js" "chrome-extension:" "abcdef"
       "/content.js")
    "no-cors".

(** The old generation next to the current one. *)
Definition two_generations : Storage :=
  [("hadiye-v0.9.0", {[ "https://hadiye.test/about" := old_page ]});
   (CACHE_NAME, {[ "https://hadiye.test/" := mkResponse 200 "<html>v1</html>" ]})].

(** The current generation alone and empty: what a first install with the
    network down, followed by activation, leaves. *)
Definition empty_generation : Storage := [(CACHE_NAME, ∅)].

(** The current generation alone, holding the list of surahs. *)
Definition surahs_json : Response := mkResponse 200 "[]".

Definition data_storage : Storage :=
  [(CACHE_NAME, {[ "https://hadiye.test/data/surahs.json" := surahs_json ]})].

(** ** Further notions: what the cache holds *)

(** Every stored response has an ok status. *)
Definition all_ok (s : Storage) : Prop :=
  Forall (λ p, map_Forall (λ _ r, ok r = true) p.2) s.

(** No generation other than the one of the version tag holds [key]. *)
Definition only_active_holds (key : string) (s : Storage) : Prop :=
  Forall (λ p, p.1 ≠ CACHE_NAME → p.2 !! key = None) s.

(** ** The control listeners of sw.js *)

(** [event.data] of a message: absent, or an object with its [type] field
    (absent when the field is missing). *)
Inductive MessageData : Type :=
| NoData
| Data (type : option string).

(** The message listener:
    [if (event.data && event.data.type === 'SKIP_WAITING') self.skipWaiting()] *)
Definition onMessage (data : MessageData) : M unit :=
  match data with
  | Data (Some type) =>
      if String.eqb type "SKIP_WAITING" then skipWaiting else mret tt
  | _ => mret tt
  end.

(** The sync listener only logs. *)
Definition onSync (tag : string) : M unit :=
  if String.eqb tag "sync-tasbiix" then mret tt else mret tt.

(** ** ramadan.js: countdown and day tracking

    A [Date] is its time value, an integer number of milliseconds, and
    comparing or subtracting two dates compares or subtracts the time
    values.  [Math.floor(a / b)] and [Math.ceil(a / b)] are taken on the
    integers [a] and [b > 0]: for time values (of magnitude at most
    8.64e15) the floating-point quotient rounds to the same integer.
    Every [new Date()] in the source reads the clock anew, so a function
    takes one argument per reading.  [RAMADAN_START] and [RAMADAN_END] are
    the time values of the two dates of the source, which are written in
    local time and so depend on the time zone. *)

Module Ramadan.

Section Dates.

Variable RAMADAN_START : Z.
Variable RAMADAN_END : Z.

Definition SECOND : Z := 1000.
Definition MINUTE : Z := 1000 * 60.
Definition HOUR : Z := 1000 * 60 * 60.
Definition DAY : Z := 1000 * 60 * 60 * 24.

(** [Math.ceil(a / b)] for [b > 0] *)
Definition ceilDiv (a b : Z) : Z := - ((- a) / b).

Definition isRamadan (now : Z) : bool :=
  (RAMADAN_START <=? now) && (now <=? RAMADAN_END).

Definition getDaysUntilRamadan (now : Z) : Z :=
  if RAMADAN_START <=? now then 0
  else
    let diff := RAMADAN_START - now in
    ceilDiv diff DAY.

(** [now1] is the reading of [isRamadan()], [now2] the function's own. *)
Definition getCurrentRamadanDay (now1 now2 : Z) : option Z :=
  if negb (isRamadan now1) then None
  else
    let diff := now2 - RAMADAN_START in
    let day := diff / DAY + 1 in
    Some (Z.min day 30).

Record Countdown : Type := mkCountdown {
  days : Z;
  hours : Z;
  minutes : Z;
  seconds : Z
}.

Definition getCountdown (now : Z) : Countdown :=
  if RAMADAN_START <=? now then mkCountdown 0 0 0 0
  else
    let diff := RAMADAN_START - now in
    mkCountdown (diff / DAY)
                (Z.rem diff DAY / HOUR)
                (Z.rem diff HOUR / MINUTE)
                (Z.rem diff MINUTE / SECOND).

(** [day <= n] where [day] may be [null], which compares as 0. *)
Definition dayLeq (day : option Z) (n : Z) : bool :=
  match day with
  | Some d => d <=? n
  | None => 0 <=? n
  end.

(** The status object, without its [progress] field (a floating-point
    percentage). *)
Record Status : Type := mkStatus {
  status_isRamadan : bool;
  currentDay : option Z;
  daysUntil : Z;
  countdown : Countdown;
  phase : string;
  totalDays : Z
}.

(** The five arguments are the clock readings of [isRamadan],
    [getCurrentRamadanDay] (two), [getCountdown] and [getDaysUntilRamadan],
    in the order of the calls. *)
Definition getRamadanStatus (now1 now2 now3 now4 now5 : Z) : Status :=
  let inRamadan := isRamadan now1 in
  let day := getCurrentRamadanDay now2 now3 in
  let countdown := getCountdown now4 in
  let daysUntil := getDaysUntilRamadan now5 in
  let phase :=
    if inRamadan then
      if dayLeq day 10 then "mercy"
      else if dayLeq day 20 then "forgiveness"
      else "salvation"
    else "before" in
  mkStatus inRamadan day daysUntil countdown phase 30.

End Dates.

End Ramadan.

(** ** tasbiix.js: the counter

    The module state, what [localStorage] holds under [STORAGE_KEY], and the
    number of pending [setTimeout] callbacks.  The calls that update the
    page read the state and do not change it; they are left out.
    [JSON.stringify] followed by [JSON.parse] gives back the numbers and
    strings of the state, so the stored item is modelled by the state that
    was written; [writable] says whether [localStorage.setItem] succeeds
    (when it throws, [saveState] only logs).  The numbers of the state are
    doubles with integer values: [count++] is the double nearest to the
    sum, which is the sum itself up to 2^53. *)

Module Tasbiix.

(** The double nearest to the integer [n], ties going to the even
    significand (for magnitudes below 2^1024, where doubles are finite). *)
Definition roundDouble (n : Z) : Z :=
  let a := Z.abs n in
  if a <? 2 ^ 53 then n
  else
    let u := 2 ^ (Z.log2 a - 52) in
    let q := a / u in
    let r := a mod u in
    let q' :=
      if 2 * r <? u then q
      else if u <? 2 * r then q + 1
      else if Z.even q then q else q + 1 in
    Z.sgn n * (q' * u).

(** [x++] on a double with an integer value *)
Definition plusOne (x : Z) : Z := roundDouble (x + 1).

Record State : Type := mkState {
  count : Z;
  target : Z;
  dhikr : string;
  totalToday : Z;
  lastReset : string
}.

Record World : Type := mkWorld {
  state : State;
  saved : option State;
  writable : bool;
  timers : nat
}.

Definition with_count (n : Z) (st : State) : State :=
  mkState n (target st) (dhikr st) (totalToday st) (lastReset st).

Definition with_state (st : State) (w : World) : World :=
  mkWorld st (saved w) (writable w) (timers w).

Definition saveState (w : World) : World :=
  if writable w then mkWorld (state w) (Some (state w)) (writable w) (timers w)
  else w.

(** [today1] and [today2] are the two readings of
    [new Date().toDateString()], for the comparison and for the update. *)
Definition loadState (today1 today2 : string) (w : World) : World :=
  match saved w with
  | Some parsed =>
      let parsed' :=
        if negb (String.eqb (lastReset parsed) today1)
        then mkState 0 (target parsed) (dhikr parsed) (totalToday parsed) today2
        else parsed in
      with_state parsed' w
  | None => w
  end.

Definition getState (w : World) : State := state w.

(** [increment]: the new world and [targetReached]. *)
Definition increment (w : World) : World * bool :=
  let st := state w in
  let st' := mkState (plusOne (count st)) (target st) (dhikr st)
               (plusOne (totalToday st)) (lastReset st) in
  let targetReached := target st' <=? count st' in
  let w1 := mkWorld st' (saved w) (writable w)
              (if targetReached then S (timers w) else timers w) in
  (saveState w1, targetReached).

(** The callback that [increment] schedules when the target is reached. *)
Definition resetCallback (w : World) : World :=
  saveState (mkWorld (with_count 0 (state w)) (saved w) (writable w)
               (pred (timers w))).

Definition reset (w : World) : World :=
  saveState (with_state (with_count 0 (state w)) w).

Definition setTarget (t : Z) (w : World) : World :=
  let st := state w in
  saveState (with_state (mkState 0 t (dhikr st) (totalToday st) (lastReset st)) w).

Definition setDhikr (d : string) (w : World) : World :=
  let st := state w in
  saveState (with_state (mkState (count st) (target st) d (totalToday st)
                           (lastReset st)) w).

(** What can happen to the counter, and a sequence of such steps. *)
Inductive Op : Type :=
| Increment
| Timeout
| Reset
| SetTarget (t : Z)
| SetDhikr (d : string).

Definition step (w : World) (o : Op) : World :=
  match o with
  | Increment => (increment w).1
  | Timeout => resetCallback w
  | Reset => reset w
  | SetTarget t => setTarget t w
  | SetDhikr d => setDhikr d w
  end.

Definition run (ops : list Op) (w : World) : World := foldl step w ops.

Definition is_increment (o : Op) : bool :=
  match o with
  | Increment => true
  | _ => false
  end.

(** A press of the button whose timeout, if one is scheduled, runs before
    the next press. *)
Definition press (w : World) : World :=
  let '(w', targetReached) := increment w in
  if targetReached : bool then resetCallback w' else w'.

End Tasbiix.

(** * Facts about the cache store *)

Section StoreFacts.

Implicit Types (s : Storage) (n m k : string) (c : Cache) (r : Response).

Lemma storage_get_app n s s' :
  storage_get n (s ++ s') =
    match storage_get n s with
    | Some c => Some c
    | None => storage_get n s'
    end.
Proof.
  induction s as [|[m c] s IH]; simpl; [done|].
  by destruct (String.eqb m n).
Qed.

Lemma storage_get_keys n s :
  is_Some (storage_get n s) ↔ n ∈ storage_keys s.
Proof.
  unfold storage_keys.
  induction s as [|[m c] s IH]; simpl.
  - split; [by intros [? ?]|by intros ?%elem_of_nil].
  - rewrite elem_of_cons. destruct (String.eqb_spec m n) as [->|Hne].
    + split; eauto.
    + rewrite IH. split; [by right|]. intros [?|?]; [congruence|done].
Qed.

Lemma storage_open_get_same m s :
  storage_get m (storage_open m s) = Some (default ∅ (storage_get m s)).
Proof.
  unfold storage_open. destruct (storage_get m s) as [c|] eqn:E.
  - by rewrite E.
  - rewrite storage_get_app, E. simpl. by rewrite String.eqb_refl.
Qed.

Lemma storage_open_get_other n m s :
  n ≠ m → storage_get n (storage_open m s) = storage_get n s.
Proof.
  intros Hne. unfold storage_open. destruct (storage_get m s); [done|].
  rewrite storage_get_app. destruct (storage_get n s); [done|].
  simpl. by destruct (String.eqb_spec m n); [congruence|].
Qed.

Lemma storage_open_preserves n m c s :
  storage_get n s = Some c → storage_get n (storage_open m s) = Some c.
Proof.
  intros E. unfold storage_open. destruct (storage_get m s); [done|].
  by rewrite storage_get_app, E.
Qed.

Lemma storage_open_idemp m s :
  storage_open m (storage_open m s) = storage_open m s.
Proof.
  unfold storage_open at 1. by rewrite storage_open_get_same.
Qed.

Lemma entry_open n m k s : entry n k (storage_open m s) = entry n k s.
Proof.
  unfold entry. destruct (String.eqb_spec n m) as [->|Hne].
  - rewrite storage_open_get_same. by destruct (storage_get m s).
  - by rewrite storage_open_get_other.
Qed.

Lemma storage_put_get n m k r s :
  storage_get n (storage_put m k r s) =
    if String.eqb n m then <[k := r]> <$> storage_get m s
    else storage_get n s.
Proof.
  induction s as [|[m' c] s IH]; simpl.
  - by destruct (String.eqb n m).
  - destruct (String.eqb_spec m' m) as [->|Hne]; simpl.
    + destruct (String.eqb_spec m n) as [->|Hne]; simpl.
      * by rewrite String.eqb_refl.
      * by destruct (String.eqb_spec n m); [congruence|].
    + destruct (String.eqb_spec m' n) as [->|Hne']; simpl; [|done].
      by destruct (String.eqb_spec n m); [congruence|].
Qed.

Lemma storage_put_keys m k r s :
  storage_keys (storage_put m k r s) = storage_keys s.
Proof.
  unfold storage_keys.
  induction s as [|[m' c] s IH]; simpl; [done|].
  destruct (String.eqb m' m); simpl; [done|]. f_equal. apply IH.
Qed.

Lemma entry_put_same m k r s :
  is_Some (storage_get m s) → entry m k (storage_put m k r s) = Some r.
Proof.
  intros [c E]. unfold entry.
  rewrite storage_put_get, String.eqb_refl, E. simpl.
  apply lookup_insert_eq.
Qed.

Lemma storage_delete_filter m s :
  storage_delete m s = List.filter (λ p, negb (String.eqb p.1 m)) s.
Proof.
  induction s as [|[m' c] s IH]; simpl; [done|].
  destruct (String.eqb m' m); simpl; by rewrite IH.
Qed.


Lemma put_all_get n m s l :
  storage_get n (put_all m s l) =
    if String.eqb n m then (λ c, batch l ∪ c) <$> storage_get m s
    else storage_get n s.
Proof.
  unfold put_all. revert s.
  induction l as [|[k r] l IH]; intros s; simpl.
  - destruct (String.eqb_spec n m) as [->|]; [|done].
    destruct (storage_get m s); simpl; [|done].
    by rewrite (left_id_L ∅ (∪)).
  - rewrite IH, !storage_put_get, String.eqb_refl.
    destruct (String.eqb n m); [|done].
    destruct (storage_get m s) as [c|]; simpl; [|done].
    by rewrite insert_union_singleton_l, (assoc_L (∪)).
Qed.

Lemma put_all_keys m s l : storage_keys (put_all m s l) = storage_keys s.
Proof.
  unfold put_all. revert s.
  induction l as [|[k r] l IH]; intros s; simpl; [done|].
  by rewrite IH, storage_put_keys.
Qed.

(** [storage_put] and a batch of puts rewrite the first generation of the
    given name and nothing else. *)
Lemma storage_put_alter m k r s :
  storage_put m k r s = storage_alter (insert k r) m s.
Proof.
  induction s as [|[n c] s IH]; simpl; [done|].
  destruct (String.eqb n m); [done|]. by rewrite IH.
Qed.

Lemma storage_alter_alter (f g : Cache → Cache) m s :
  storage_alter g m (storage_alter f m s) = storage_alter (g ∘ f) m s.
Proof.
  induction s as [|[n c] s IH]; simpl; [done|].
  destruct (String.eqb n m) eqn:E; simpl; rewrite E; [done|].
  by rewrite IH.
Qed.

Lemma storage_alter_ext (f g : Cache → Cache) m s :
  (∀ c, f c = g c) → storage_alter f m s = storage_alter g m s.
Proof.
  intros Hfg. induction s as [|[n c] s IH]; simpl; [done|].
  destruct (String.eqb n m); [by rewrite Hfg|by rewrite IH].
Qed.

Lemma put_all_alter m s l :
  put_all m s l = storage_alter (λ c, batch l ∪ c) m s.
Proof.
  unfold put_all. revert s.
  induction l as [|[k r] l IH]; intros s; simpl.
  - induction s as [|[n c] s IHs]; simpl; [done|].
    destruct (String.eqb n m); [by rewrite (left_id_L ∅ (∪))|by rewrite <- IHs].
  - rewrite IH, storage_put_alter, storage_alter_alter.
    apply storage_alter_ext. intros c. simpl.
    by rewrite insert_union_singleton_l, (assoc_L (∪)).
Qed.

(** Replaying a batch of puts changes nothing. *)
Lemma put_all_idemp m s l : put_all m (put_all m s l) l = put_all m s l.
Proof.
  rewrite !put_all_alter, storage_alter_alter.
  apply storage_alter_ext. intros c. simpl.
  by rewrite (assoc_L (∪)), (idemp_L (∪)).
Qed.

Lemma put_all_open m s l :
  storage_open m (put_all m (storage_open m s) l) = put_all m (storage_open m s) l.
Proof.
  unfold storage_open at 1.
  rewrite put_all_get, String.eqb_refl, storage_open_get_same. done.
Qed.

End StoreFacts.

(** * The lifecycle listeners *)

Section Activate.

Implicit Types (s : Storage) (n m k : string) (c : Cache) (r : Response).

Lemma forEach_run {A} (f : A → M unit) (g : A → Storage → Storage)
    (e : A → Event) l s :
  (∀ x s', f x s' = (tt, g x s', [e x])) →
  forEach f l s = (tt, foldl (λ s' x, g x s') s l, e <$> l).
Proof.
  intros Hf. revert s.
  induction l as [|x l IH]; intros s; [done|].
  cbn [forEach foldl]. unfold mbind, M_bind.
  by rewrite Hf, IH.
Qed.

Lemma forEach_delete l s :
  forEach (λ name, caches_delete name;; mret tt) l s =
    (tt, delete_all s l, EvDelete <$> l).
Proof. by apply (forEach_run _ storage_delete EvDelete). Qed.

Lemma delete_all_filter l s :
  delete_all s l = List.filter (λ p, negb (bool_decide (p.1 ∈ l))) s.
Proof.
  unfold delete_all. revert s.
  induction l as [|n l IH]; intros s; cbn [foldl].
  - induction s as [|p s IHs]; [done|].
    cbn [List.filter]. rewrite bool_decide_eq_false_2 by apply not_elem_of_nil.
    cbn. by rewrite <- IHs.
  - rewrite IH, storage_delete_filter.
    induction s as [|p s IHs]; [done|].
    cbn [List.filter].
    destruct (String.eqb_spec p.1 n) as [E|E]; cbn [negb List.filter].
    + rewrite bool_decide_eq_true_2 by (apply elem_of_cons; by left).
      cbn [negb]. apply IHs.
    + rewrite IHs.
      destruct (decide (p.1 ∈ l)) as [Hin|Hin].
      * rewrite !bool_decide_eq_true_2; [done|apply elem_of_cons; by right|done].
      * rewrite !bool_decide_eq_false_2; [done| |done].
        by intros [?|?]%elem_of_cons.
Qed.

Lemma activate_run s :
  activate s =
    (tt,
     List.filter (λ p, String.eqb p.1 CACHE_NAME) s,
     EvKeys ::
       (EvDelete <$> List.filter (λ n, negb (String.eqb n CACHE_NAME)) (storage_keys s))
       ++ [EvClaim]).
Proof.
  unfold activate, mbind, M_bind, caches_keys, clients_claim.
  rewrite forEach_delete, delete_all_filter. cbn [app]. do 2 f_equal.
  apply filter_ext_in. intros [n c] Hin. cbn [fst].
  destruct (String.eqb_spec n CACHE_NAME) as [->|Hne].
  - apply negb_true_iff, bool_decide_eq_false_2.
    rewrite list_elem_of_In, filter_In, String.eqb_refl. by intros [_ ?].
  - apply negb_false_iff, bool_decide_eq_true_2.
    rewrite list_elem_of_In, filter_In. split.
    + apply list_elem_of_In. unfold storage_keys.
      apply list_elem_of_fmap. exists (n, c). split; [done|].
      by apply list_elem_of_In.
    + by apply negb_true_iff, String.eqb_neq.
Qed.

Lemma filter_name_get n m s :
  storage_get n (List.filter (λ p, String.eqb p.1 m) s) =
    if String.eqb n m then storage_get m s else None.
Proof.
  induction s as [|[m' c] s IH]; simpl.
  - by destruct (String.eqb n m).
  - destruct (String.eqb_spec m' m) as [->|Hne]; simpl.
    + rewrite IH. destruct (String.eqb_spec n m) as [->|Hne]; simpl.
      * by rewrite String.eqb_refl.
      * by destruct (String.eqb_spec m n); [congruence|].
    + apply IH.
Qed.

Lemma filter_name_absent m s :
  m ∉ storage_keys s → List.filter (λ p, String.eqb p.1 m) s = [].
Proof.
  unfold storage_keys.
  induction s as [|[m' c] s IH]; simpl; [done|].
  intros [Hne Hin]%not_elem_of_cons.
  destruct (String.eqb_spec m' m); [congruence|]. by apply IH.
Qed.

Lemma filter_name_keys m s :
  wf s → m ∈ storage_keys s →
  storage_keys (List.filter (λ p, String.eqb p.1 m) s) = [m].
Proof.
  unfold wf, storage_keys.
  induction s as [|[m' c] s IH]; simpl.
  - by intros _ ?%elem_of_nil.
  - intros [Hnin Hnd]%NoDup_cons Hin.
    destruct (String.eqb_spec m' m) as [->|Hne]; simpl.
    + f_equal. change (storage_keys (List.filter (λ p, String.eqb p.1 m) s) = []).
      by rewrite filter_name_absent.
    + apply IH; [done|]. by apply elem_of_cons in Hin as [?|?].
Qed.

Lemma storage_open_wf m s : wf s → wf (storage_open m s).
Proof.
  unfold wf, storage_open, storage_keys. intros Hwf.
  destruct (storage_get m s) eqn:E; [done|].
  rewrite fmap_app. apply NoDup_app. split_and!; [done| |apply NoDup_singleton].
  intros n Hn Hm%list_elem_of_singleton. simpl in Hm. subst n.
  apply storage_get_keys in Hn as [? ?]. congruence.
Qed.

Lemma storage_put_wf m k r s : wf s → wf (storage_put m k r s).
Proof. unfold wf. by rewrite storage_put_keys. Qed.

Lemma filter_name_wf m s :
  wf s → wf (List.filter (λ p, String.eqb p.1 m) s).
Proof.
  unfold wf, storage_keys.
  induction s as [|[n c] s IH]; simpl; [done|].
  intros [Hnin Hnd]%NoDup_cons.
  destruct (String.eqb n m); simpl; [|by apply IH].
  apply NoDup_cons. split; [|by apply IH].
  intros Hin. apply Hnin.
  apply list_elem_of_fmap in Hin as ([n' c'] & -> & Hin).
  apply list_elem_of_In, filter_In in Hin as [Hin _].
  apply list_elem_of_fmap. exists (n', c'). split; [done|].
  by apply list_elem_of_In.
Qed.

Lemma storage_open_keys m s : m ∈ storage_keys (storage_open m s).
Proof. apply storage_get_keys. rewrite storage_open_get_same. eauto. Qed.

End Activate.

Section Lifecycle.

Variable network : string → FetchResult.
Variable origin : string.

Implicit Types (s : Storage) (n m k : string) (c : Cache) (r : Response).

Lemma precache_fails_mapM assets :
  precache_fails network origin assets ↔
  mapM accepted (network <$> (resolve origin <$> assets)) = None.
Proof.
  unfold precache_fails.
  rewrite mapM_None, !Exists_fmap, Exists_exists. done.
Qed.

Lemma precache_rejected name assets s :
  precache_fails network origin assets →
  precache network origin name assets s =
    (true, storage_open name s,
     EvOpen name :: (EvFetch <$> (resolve origin <$> assets)) ++ []).
Proof.
  intros H%precache_fails_mapM.
  unfold precache, mbind, M_bind, caches_open, cache_addAll.
  by rewrite H.
Qed.

Lemma precache_store name assets s :
  store (precache network origin name assets s) =
    match mapM accepted (network <$> (resolve origin <$> assets)) with
    | Some rs => put_all name (storage_open name s) (zip (resolve origin <$> assets) rs)
    | None => storage_open name s
    end.
Proof.
  unfold precache, mbind, M_bind, caches_open, cache_addAll.
  by destruct (mapM _ _).
Qed.

Lemma precache_idemp name assets s :
  store (precache network origin name assets
           (store (precache network origin name assets s))) =
  store (precache network origin name assets s).
Proof.
  rewrite !precache_store.
  destruct (mapM _ _) as [rs|].
  - by rewrite put_all_open, put_all_idemp.
  - apply storage_open_idemp.
Qed.

Lemma precache_failure name assets s :
  precache_fails network origin assets →
  store (precache network origin name assets s) = storage_open name s ∧
  (∀ n c, storage_get n s = Some c →
          storage_get n (store (precache network origin name assets s)) = Some c) ∧
  (∀ n k, entry n k (store (precache network origin name assets s)) = entry n k s) ∧
  (∀ e, e ∈ events (precache network origin name assets s) →
        e = EvOpen name ∨ ∃ k, e = EvFetch k).
Proof.
  intros Hf. rewrite (precache_rejected _ _ _ Hf).
  unfold store, events. cbn [fst snd]. split_and!.
  - done.
  - intros n c. apply storage_open_preserves.
  - intros n k. apply entry_open.
  - intros e [->|He]%elem_of_cons; [by left|right].
    apply elem_of_app in He as [He|He%elem_of_nil]; [|done].
    apply list_elem_of_fmap in He as (k & -> & _). eauto.
Qed.

(** ** C8 *)

(** C8 (install idempotence): for every version tag and manifest, and in
    particular for those of the worker, running the install listener a
    second time against the same network leaves the whole storage, hence
    the contents of the generation of that tag, as the first run left it. *)
Theorem install_idempotent :
  (∀ name assets s,
     store (precache network origin name assets
              (store (precache network origin name assets s))) =
     store (precache network origin name assets s)) ∧
  (∀ s,
     storage_get CACHE_NAME
       (store (install network origin (store (install network origin s)))) =
     storage_get CACHE_NAME (store (install network origin s))).
Proof.
  split.
  - apply precache_idemp.
  - intros s. unfold install. by rewrite precache_idemp.
Qed.

(** ** C1 *)

(** C1, amended (a failed precache): when a precache fetch fails, the install
    listener writes no entry and leaves every generation that existed with
    the contents it had; the storage differs at most by an empty generation
    named by the version tag, created if there was none, and [skipWaiting]
    is not called. *)
Theorem install_failure_writes_nothing s :
  precache_fails network origin PRECACHE_ASSETS →
  store (install network origin s) = storage_open CACHE_NAME s ∧
  (∀ n c, storage_get n s = Some c →
          storage_get n (store (install network origin s)) = Some c) ∧
  (∀ n k, entry n k (store (install network origin s)) = entry n k s) ∧
  (∀ e, e ∈ events (install network origin s) →
        e = EvOpen CACHE_NAME ∨ ∃ k, e = EvFetch k).
Proof. apply precache_failure. Qed.

Lemma precache_keys name assets s :
  storage_keys (store (precache network origin name assets s)) =
  storage_keys (storage_open name s).
Proof.
  rewrite precache_store. destruct (mapM _ _); [|done].
  apply put_all_keys.
Qed.

(** ** C6 *)

(** C6 (activate garbage collection): on a storage whose generations have
    distinct names, the activate listener deletes every generation whose
    name differs from the version tag and keeps the generation of the tag
    as it is; so whenever that generation exists, and in particular after
    the install listener has run, the generations that remain are exactly
    the one named by the version tag. *)
Theorem activate_collects_garbage s :
  wf s →
  (∀ n, n ≠ CACHE_NAME → n ∈ storage_keys s → EvDelete n ∈ events (activate s)) ∧
  (∀ n, n ≠ CACHE_NAME → storage_get n (store (activate s)) = None) ∧
  storage_get CACHE_NAME (store (activate s)) = storage_get CACHE_NAME s ∧
  (CACHE_NAME ∈ storage_keys s →
   storage_keys (store (activate s)) = [CACHE_NAME]) ∧
  storage_keys (store (activate (store (install network origin s)))) = [CACHE_NAME].
Proof.
  intros Hwf. rewrite !activate_run. unfold store, events. cbn [fst snd].
  split_and!.
  - intros n Hne Hin. apply elem_of_cons. right. apply elem_of_app. left.
    apply list_elem_of_fmap. exists n. split; [done|].
    apply list_elem_of_In, filter_In. split; [by apply list_elem_of_In|].
    by apply negb_true_iff, String.eqb_neq.
  - intros n Hne. rewrite filter_name_get.
    by destruct (String.eqb_spec n CACHE_NAME).
  - by rewrite filter_name_get, String.eqb_refl.
  - by apply filter_name_keys.
  - apply filter_name_keys.
    + unfold wf, install. change (precache network origin CACHE_NAME PRECACHE_ASSETS s).1.2
        with (store (precache network origin CACHE_NAME PRECACHE_ASSETS s)).
      rewrite precache_keys. by apply storage_open_wf.
    + unfold install. change (precache network origin CACHE_NAME PRECACHE_ASSETS s).1.2
        with (store (precache network origin CACHE_NAME PRECACHE_ASSETS s)).
      rewrite precache_keys. apply storage_open_keys.
Qed.

(** The names of the generations stay distinct under both listeners. *)
Lemma lifecycle_preserves_wf s :
  wf s →
  wf (store (install network origin s)) ∧ wf (store (activate s)).
Proof.
  intros Hwf. split.
  - unfold wf, install. rewrite precache_keys. by apply storage_open_wf.
  - rewrite activate_run. by apply filter_name_wf.
Qed.

End Lifecycle.

(** ** Concrete runs of the lifecycle listeners *)

Lemma two_generations_wf : wf two_generations.
Proof. apply (bool_decide_unpack _). vm_compute. reflexivity. Qed.

Lemma net_down_fails : precache_fails net_down site PRECACHE_ASSETS.
Proof.
  exists "/". split; [|reflexivity].
  unfold PRECACHE_ASSETS. apply elem_of_cons. by left.
Qed.

(** The scenario of the old generation and the new one: only the generation
    of the version tag is left. *)
Lemma activate_collects_garbage_witness :
  wf two_generations ∧
  storage_get "hadiye-v0.9.0" (store (activate two_generations)) = None ∧
  storage_keys (store (activate two_generations)) = [CACHE_NAME].
Proof.
  pose proof (activate_collects_garbage net_up site two_generations
                two_generations_wf) as (_ & Hdel & _ & Hkeys & _).
  split_and!.
  - exact two_generations_wf.
  - apply Hdel. discriminate.
  - apply Hkeys. apply (bool_decide_unpack _). vm_compute. reflexivity.
Defined.

(** With the network down the install listener writes nothing into the old
    storage. *)
Lemma install_failure_writes_nothing_witness :
  precache_fails net_down site PRECACHE_ASSETS ∧
  store (install net_down site old_storage) = storage_open CACHE_NAME old_storage.
Proof.
  split; [exact net_down_fails|].
  apply (install_failure_writes_nothing net_down site old_storage net_down_fails).
Defined.

(** C1 as stated fails: on the first ever run, with the network down, the
    install listener leaves a generation behind where there was none. *)
Lemma install_failure_creates_generation :
  precache_fails net_down site PRECACHE_ASSETS ∧
  storage_keys [] = [] ∧
  storage_keys (store (install net_down site [])) = [CACHE_NAME] ∧
  store (install net_down site []) ≠ [].
Proof.
  split_and!; [exact net_down_fails|reflexivity|by vm_compute|by vm_compute].
Qed.

(** * The strategies *)

Section Strategies.

Variable network : string → FetchResult.
Variable origin : string.

Implicit Types (s : Storage) (n m k : string) (c r : Response).
Implicit Types (request : Request).

(** ** What [caches.match] reads *)

Lemma writes_app t1 t2 : writes (t1 ++ t2) = writes t1 ++ writes t2.
Proof. apply omap_app. Qed.

Lemma reads_app t1 t2 : reads (t1 ++ t2) = reads t1 ++ reads t2.
Proof. apply omap_app. Qed.

Lemma writes_fetch k t : writes (EvFetch k :: t) = writes t.
Proof. done. Qed.

Lemma reads_fetch k t : reads (EvFetch k :: t) = reads t.
Proof. done. Qed.

Lemma storage_match_events k s :
  writes (storage_match k s).2 = [] ∧
  fetches (storage_match k s).2 = [] ∧
  Forall (λ n, n ∈ storage_keys s) (reads (storage_match k s).2).
Proof.
  unfold storage_keys.
  induction s as [|[n c] s (IHw & IHf & IHr)]; simpl; [by split_and!|].
  assert (n ∈ n :: s.*1) as Hn by (apply elem_of_cons; by left).
  destruct (c !! k) as [r|]; simpl.
  - split_and!; [done..|]. by repeat constructor.
  - destruct (storage_match k s) as [o t]. simpl in *. split_and!; [done..|].
    constructor; [done|].
    eapply Forall_impl; [exact IHr|]. intros m Hm. apply elem_of_cons. by right.
Qed.

(** ** The three strategies, case by case *)

Lemma cacheFirst_hit request s r :
  cached (href (url request)) s = Some r →
  cacheFirst network request s =
    (Some r, s, (storage_match (href (url request)) s).2 ++ []).
Proof.
  unfold cached, cacheFirst, mbind, M_bind, caches_match.
  destruct (storage_match _ s) as [o t]. simpl. by intros ->.
Qed.

Lemma cacheFirst_miss request s :
  cached (href (url request)) s = None →
  cacheFirst network request s =
    let key := href (url request) in
    let t := (storage_match key s).2 in
    match network key with
    | Resolved r =>
        if ok r then
          (Some r,
           if partial r then storage_open CACHE_NAME s
           else storage_put CACHE_NAME key r (storage_open CACHE_NAME s),
           t ++ [EvFetch key; EvOpen CACHE_NAME; EvWrite CACHE_NAME key])
        else (Some r, s, t ++ [EvFetch key])
    | Rejected => (Some offlineResponse, s, t ++ [EvFetch key])
    end.
Proof.
  unfold cached, cacheFirst, storeIfOk, mbind, M_bind, caches_match, fetch,
    caches_open, cache_put.
  destruct (storage_match _ s) as [o t]. simpl. intros ->.
  destruct (network _) as [r|]; [|done]. by destruct (ok r).
Qed.

Lemma networkFirst_resolved request s r :
  network (href (url request)) = Resolved r →
  networkFirst network origin request s =
    let key := href (url request) in
    if ok r then
      (Some r,
       if partial r then storage_open CACHE_NAME s
       else storage_put CACHE_NAME key r (storage_open CACHE_NAME s),
       [EvFetch key; EvOpen CACHE_NAME; EvWrite CACHE_NAME key])
    else (Some r, s, [EvFetch key]).
Proof.
  unfold networkFirst, storeIfOk, mbind, M_bind, fetch, caches_open, cache_put.
  intros ->. by destruct (ok r).
Qed.

Lemma networkFirst_rejected_run request s :
  network (href (url request)) = Rejected →
  networkFirst network origin request s =
    let key := href (url request) in
    let m1 := storage_match key s in
    let m2 := storage_match (resolve origin OFFLINE_URL) s in
    let m3 := storage_match (resolve origin "/") s in
    match m1.1 with
    | Some c => (Some c, s, EvFetch key :: m1.2 ++ [])
    | None =>
        if String.eqb (mode request) "navigate" then
          match m2.1 with
          | Some p => (Some p, s, EvFetch key :: m1.2 ++ m2.2 ++ [])
          | None => (m3.1, s, EvFetch key :: m1.2 ++ m2.2 ++ m3.2)
          end
        else (Some offlineResponse, s, EvFetch key :: m1.2 ++ [])
    end.
Proof.
  intros Hn.
  unfold networkFirst, mbind, M_bind, fetch, caches_match. rewrite Hn.
  cbv zeta.
  destruct (storage_match (href (url request)) s) as [[c|] t1]; [done|].
  cbn [fst snd].
  destruct (String.eqb (mode request) "navigate"); [|done].
  destruct (storage_match (resolve origin OFFLINE_URL) s) as [[p|] t2]; [done|].
  by destruct (storage_match (resolve origin "/") s) as [o3 t3].
Qed.

Lemma networkFirst_rejected request s :
  network (href (url request)) = Rejected →
  result (networkFirst network origin request s) =
    match cached (href (url request)) s with
    | Some c => Some c
    | None =>
        if String.eqb (mode request) "navigate" then
          match cached (resolve origin OFFLINE_URL) s with
          | Some p => Some p
          | None => cached (resolve origin "/") s
          end
        else Some offlineResponse
    end ∧
  store (networkFirst network origin request s) = s ∧
  writes (events (networkFirst network origin request s)) = [] ∧
  Forall (λ n, n ∈ storage_keys s)
    (reads (events (networkFirst network origin request s))).
Proof.
  intros Hn. rewrite (networkFirst_rejected_run _ _ Hn).
  pose proof (storage_match_events (href (url request)) s) as (Hw1 & _ & Hr1).
  pose proof (storage_match_events (resolve origin OFFLINE_URL) s) as (Hw2 & _ & Hr2).
  pose proof (storage_match_events (resolve origin "/") s) as (Hw3 & _ & Hr3).
  unfold cached, result, store, events. cbv zeta.
  destruct (storage_match (href (url request)) s).1; cbn [fst snd];
    [|destruct (String.eqb (mode request) "navigate"); cbn [fst snd];
      [destruct (storage_match (resolve origin OFFLINE_URL) s).1; cbn [fst snd]|]];
    rewrite writes_fetch, reads_fetch, !writes_app, !reads_app, ?Hw1, ?Hw2, ?Hw3,
      !Forall_app;
    by split_and!.
Qed.

Lemma staleWhileRevalidate_run request s :
  staleWhileRevalidate network request s =
    let key := href (url request) in
    let s1 := storage_open CACHE_NAME s in
    let before := entry CACHE_NAME key s1 in
    let t := [EvOpen CACHE_NAME; EvRead CACHE_NAME key; EvFetch key] in
    match network key with
    | Resolved r =>
        (Some (default r before),
         if ok r && negb (partial r) then storage_put CACHE_NAME key r s1 else s1,
         if ok r then t ++ [EvWrite CACHE_NAME key] else t)
    | Rejected => (before, s1, t)
    end.
Proof.
  unfold staleWhileRevalidate, mbind, M_bind, fetch, caches_open, cache_match,
    cache_put, entry.
  destruct (network _) as [r|]; simpl.
  - destruct (ok r); simpl; [destruct (partial r); simpl|];
      by destruct (storage_get _ _ ≫= _).
  - by destruct (storage_get _ _ ≫= _).
Qed.

Lemma storage_put_open_get_other n k r s :
  n ≠ CACHE_NAME →
  storage_get n (storage_put CACHE_NAME k r (storage_open CACHE_NAME s)) =
  storage_get n s.
Proof.
  intros Hne. rewrite storage_put_get.
  destruct (String.eqb_spec n CACHE_NAME); [done|].
  by apply storage_open_get_other.
Qed.

Lemma entry_put_open k r s :
  entry CACHE_NAME k (storage_put CACHE_NAME k r (storage_open CACHE_NAME s)) =
  Some r.
Proof. apply entry_put_same. rewrite storage_open_get_same. eauto. Qed.

(** The names of the generations stay distinct under every strategy. *)
Lemma strategies_preserve_wf request s :
  wf s →
  wf (store (cacheFirst network request s)) ∧
  wf (store (networkFirst network origin request s)) ∧
  wf (store (staleWhileRevalidate network request s)).
Proof.
  intros Hwf. split_and!.
  - destruct (cached (href (url request)) s) as [c|] eqn:E.
    + by rewrite (cacheFirst_hit _ _ _ E).
    + rewrite (cacheFirst_miss _ _ E). cbv zeta.
      destruct (network _) as [r|]; [destruct (ok r); [destruct (partial r)|]|];
        unfold store; cbn [fst snd]; try done;
        try apply storage_put_wf; by apply storage_open_wf.
  - destruct (network (href (url request))) as [r|] eqn:Hn.
    + rewrite (networkFirst_resolved _ _ _ Hn). cbv zeta.
      destruct (ok r); [destruct (partial r)|];
        unfold store; cbn [fst snd]; try done;
        try apply storage_put_wf; by apply storage_open_wf.
    + by destruct (networkFirst_rejected _ s Hn) as (_ & -> & _).
  - rewrite staleWhileRevalidate_run. cbv zeta.
    destruct (network _) as [r|]; [destruct (ok r); [destruct (partial r)|]|];
      unfold store; cbn [fst snd andb negb];
      try apply storage_put_wf; by apply storage_open_wf.
Qed.

(** The fetch listener hands a GET request over http(s) to the strategy of
    its class. *)
Lemma onFetch_routes request s :
  method request = "GET" →
  startsWith "http" (protocol (url request)) = true →
  onFetch network origin request s =
    let u := url request in
    let respond (x : option Response * Storage * list Event) :=
      (RespondWith x.1.1, x.1.2, x.2) in
    if startsWith "/data/" (pathname u) then
      respond (cacheFirst network request s)
    else if matchJsCss (pathname u) then
      respond (staleWhileRevalidate network request s)
    else if includes "fonts.googleapis.com" (hostname u)
            || includes "fonts.gstatic.com" (hostname u)
            || includes "cdnjs.cloudflare.com" (hostname u) then
      respond (cacheFirst network request s)
    else respond (networkFirst network origin request s).
Proof.
  intros Hm Hp. unfold onFetch. rewrite Hm, Hp, String.eqb_refl.
  cbv zeta. cbn [negb].
  unfold fmap, M_fmap.
  destruct (startsWith "/data/" _);
    [|destruct (matchJsCss _);
      [|destruct (_ || _)]];
    [destruct (cacheFirst network request s) as [[? ?] ?]
    |destruct (staleWhileRevalidate network request s) as [[? ?] ?]
    |destruct (cacheFirst network request s) as [[? ?] ?]
    |destruct (networkFirst network origin request s) as [[? ?] ?]];
    done.
Qed.

(** ** C4 *)

(** C4, amended (Cache-First): [cacheFirst] always answers with a response,
    never with an error.  When [caches.match] finds an entry, that entry is
    the answer, the storage is unchanged and no network call is made.  When
    it finds none, exactly one fetch is made: a response with an ok status
    other than 206 is stored under the request in the generation of the
    version tag and returned; a response with status 206, which the cache
    store refuses, is returned and no entry changes; a rejected fetch is
    answered with status 503 and body "Offline", and the storage is
    unchanged. *)
Theorem cacheFirst_behaviour request s :
  let key := href (url request) in
  let run := cacheFirst network request s in
  is_Some (result run) ∧
  (∀ c, cached key s = Some c →
        result run = Some c ∧ store run = s ∧ fetches (events run) = []) ∧
  (cached key s = None → fetches (events run) = [key]) ∧
  (∀ r, cached key s = None → network key = Resolved r → ok r = true →
        status r ≠ 206 →
        result run = Some r ∧ entry CACHE_NAME key (store run) = Some r) ∧
  (∀ r, cached key s = None → network key = Resolved r → status r = 206 →
        result run = Some r ∧ ∀ n k, entry n k (store run) = entry n k s) ∧
  (cached key s = None → network key = Rejected →
        result run = Some (mkResponse 503 "Offline") ∧ store run = s).
Proof.
  intros key run. subst key run.
  pose proof (storage_match_events (href (url request)) s) as (_ & Hf & _).
  split_and!.
  - destruct (cached (href (url request)) s) as [c|] eqn:E.
    + rewrite (cacheFirst_hit _ _ _ E). by eexists.
    + rewrite (cacheFirst_miss _ _ E). cbv zeta.
      destruct (network _) as [r|]; [destruct (ok r)|]; by eexists.
  - intros c E. rewrite (cacheFirst_hit _ _ _ E).
    unfold result, store, events, fetches in *. cbn [fst snd].
    by rewrite app_nil_r.
  - intros E. rewrite (cacheFirst_miss _ _ E). cbv zeta.
    unfold events, fetches in *.
    destruct (network _) as [r|]; [destruct (ok r)|];
      cbn [fst snd]; by rewrite omap_app, Hf.
  - intros r E Hn Hok Hp%Z.eqb_neq. rewrite (cacheFirst_miss _ _ E). cbv zeta.
    rewrite Hn, Hok. unfold partial. rewrite Hp. unfold result, store. cbn [fst snd].
    split; [done|]. apply entry_put_open.
  - intros r E Hn Hp. rewrite (cacheFirst_miss _ _ E). cbv zeta.
    rewrite Hn. unfold ok, partial. rewrite Hp. cbn [Z.leb Z.eqb andb].
    unfold result, store. cbn [fst snd].
    split; [done|]. intros n k. apply entry_open.
  - intros E Hn. rewrite (cacheFirst_miss _ _ E). cbv zeta.
    by rewrite Hn.
Qed.

(** ** C3 *)

(** C3, amended (responses with an error status): when the fetch of a
    Network-First request, or of a Cache-First request that missed the
    cache, resolves with a status outside 200..299, that response is
    returned as it is and is not stored: the storage is unchanged and no
    write is issued. *)
Theorem error_status_returned_not_stored request s r :
  network (href (url request)) = Resolved r →
  ok r = false →
  (result (networkFirst network origin request s) = Some r ∧
   store (networkFirst network origin request s) = s ∧
   writes (events (networkFirst network origin request s)) = []) ∧
  (cached (href (url request)) s = None →
   result (cacheFirst network request s) = Some r ∧
   store (cacheFirst network request s) = s ∧
   writes (events (cacheFirst network request s)) = []).
Proof.
  intros Hn Hok. split.
  - rewrite (networkFirst_resolved _ _ _ Hn). cbv zeta. by rewrite Hok.
  - intros E. rewrite (cacheFirst_miss _ _ E). cbv zeta. rewrite Hn, Hok.
    pose proof (storage_match_events (href (url request)) s) as (Hw & _ & _).
    unfold result, store, events, writes in *. cbn [fst snd].
    by rewrite omap_app, Hw.
Qed.

(** ** C10 *)

(** C10 (a failed revalidation leaves the cache alone): when the fetch of
    [staleWhileRevalidate] is rejected, or resolves with a status that is
    not ok, every entry of every generation, that of the request included,
    is what it was before; when it resolves with an ok status other than
    206 the entry of the request becomes that response.  So the entry of the
    request changes only if the fetch resolved with an ok status (one that
    the cache store accepts). *)
Theorem revalidation_failure_keeps_entry request s :
  let key := href (url request) in
  let run := staleWhileRevalidate network request s in
  (network key = Rejected ∨ (∃ r, network key = Resolved r ∧ ok r = false) →
   ∀ n k, entry n k (store run) = entry n k s) ∧
  (∀ r, network key = Resolved r → ok r = true → status r ≠ 206 →
        entry CACHE_NAME key (store run) = Some r) ∧
  (entry CACHE_NAME key (store run) ≠ entry CACHE_NAME key s →
   ∃ r, network key = Resolved r ∧ ok r = true ∧ status r ≠ 206).
Proof.
  intros key run. subst key run. rewrite staleWhileRevalidate_run. cbv zeta.
  split_and!.
  - intros [Hn|(r & Hn & Hok)] n k; rewrite Hn; [|rewrite Hok];
      unfold store; cbn [fst snd andb]; apply entry_open.
  - intros r Hn Hok Hp%Z.eqb_neq. rewrite Hn, Hok. unfold partial. rewrite Hp.
    unfold store. cbn [fst snd andb negb]. apply entry_put_open.
  - destruct (network _) as [r|]; [destruct (ok r) eqn:Hok|];
      [destruct (partial r) eqn:Hp|..];
      unfold store; cbn [fst snd andb negb]; rewrite ?entry_open; try done.
    intros _. exists r. split_and!; [done..|].
    by apply Z.eqb_neq.
Qed.

(** What [staleWhileRevalidate] answers. *)
Lemma staleWhileRevalidate_result request s :
  let key := href (url request) in
  let run := staleWhileRevalidate network request s in
  (∀ c, entry CACHE_NAME key s = Some c → result run = Some c) ∧
  (∀ r, entry CACHE_NAME key s = None → network key = Resolved r →
        result run = Some r) ∧
  (entry CACHE_NAME key s = None → network key = Rejected →
   result run = None).
Proof.
  intros key run. subst key run. rewrite staleWhileRevalidate_run. cbv zeta.
  rewrite entry_open. split_and!.
  - intros c ->. by destruct (network _).
  - by intros r -> ->.
  - by intros -> ->.
Qed.

(** ** C9 *)

(** C9, amended (which generations a strategy touches): every generation a
    strategy opens or writes to is the one named by the version tag, and
    the other generations are left as they were.  [staleWhileRevalidate]
    reads that generation only.  [cacheFirst] and [networkFirst] read
    through [caches.match], which consults the generations that exist; so
    they read that generation only when no other generation exists. *)
Theorem strategies_scope request s :
  let cf := cacheFirst network request s in
  let nf := networkFirst network origin request s in
  let swr := staleWhileRevalidate network request s in
  (Forall (λ n, n = CACHE_NAME) (writes (events cf)) ∧
   Forall (λ n, n = CACHE_NAME) (writes (events nf)) ∧
   Forall (λ n, n = CACHE_NAME) (writes (events swr))) ∧
  (∀ n, n ≠ CACHE_NAME →
        storage_get n (store cf) = storage_get n s ∧
        storage_get n (store nf) = storage_get n s ∧
        storage_get n (store swr) = storage_get n s) ∧
  Forall (λ n, n = CACHE_NAME) (reads (events swr)) ∧
  (Forall (λ n, n ∈ storage_keys s) (reads (events cf)) ∧
   Forall (λ n, n ∈ storage_keys s) (reads (events nf))) ∧
  (storage_keys s = [CACHE_NAME] →
   Forall (λ n, n = CACHE_NAME) (reads (events cf)) ∧
   Forall (λ n, n = CACHE_NAME) (reads (events nf))).
Proof.
  intros cf nf swr.
  pose proof (storage_match_events (href (url request)) s) as (Hw & _ & Hr).
  assert (Forall (λ n, n = CACHE_NAME) (writes (events cf)) ∧
          (∀ n, n ≠ CACHE_NAME → storage_get n (store cf) = storage_get n s) ∧
          Forall (λ n, n ∈ storage_keys s) (reads (events cf)))
    as (Hcf_w & Hcf_s & Hcf_r).
  { subst cf. unfold writes, reads, events, store in *.
    destruct (cached (href (url request)) s) as [c|] eqn:E.
    - rewrite (cacheFirst_hit _ _ _ E). cbn [fst snd].
      rewrite app_nil_r, Hw. by split_and!.
    - rewrite (cacheFirst_miss _ _ E). cbv zeta.
      destruct (network _) as [r|]; [destruct (ok r); [destruct (partial r)|]|];
        cbn [fst snd]; rewrite !omap_app, Hw; cbn; rewrite ?app_nil_r;
        split_and!; try done; try (by repeat constructor);
        intros n Hne;
        first [by apply storage_put_open_get_other
              |by apply storage_open_get_other]. }
  assert (Forall (λ n, n = CACHE_NAME) (writes (events nf)) ∧
          (∀ n, n ≠ CACHE_NAME → storage_get n (store nf) = storage_get n s) ∧
          Forall (λ n, n ∈ storage_keys s) (reads (events nf)))
    as (Hnf_w & Hnf_s & Hnf_r).
  { subst nf.
    destruct (network (href (url request))) as [r|] eqn:Hn.
    - rewrite (networkFirst_resolved _ _ _ Hn). cbv zeta.
      destruct (ok r); [destruct (partial r)|];
        unfold writes, reads, events, store; cbn;
        split_and!; try done; try (by repeat constructor);
        intros n Hne;
        first [by apply storage_put_open_get_other
              |by apply storage_open_get_other].
    - destruct (networkFirst_rejected _ s Hn) as (_ & -> & -> & ?).
      by split_and!. }
  assert (Forall (λ n, n = CACHE_NAME) (writes (events swr)) ∧
          (∀ n, n ≠ CACHE_NAME → storage_get n (store swr) = storage_get n s) ∧
          Forall (λ n, n = CACHE_NAME) (reads (events swr)))
    as (Hswr_w & Hswr_s & Hswr_r).
  { subst swr. rewrite staleWhileRevalidate_run. cbv zeta.
    destruct (network _) as [r|]; [destruct (ok r); [destruct (partial r)|]|];
      unfold writes, reads, events, store; cbn; split_and!;
      try (by repeat constructor);
      intros n Hne; rewrite ?storage_put_get;
      destruct (String.eqb_spec n CACHE_NAME); try done;
      by apply storage_open_get_other. }
  split_and!; try done.
  - intros n Hne. by split_and!; [apply Hcf_s|apply Hnf_s|apply Hswr_s].
  - intros Hk. rewrite Hk in Hcf_r, Hnf_r.
    split; (eapply Forall_impl; [eassumption|]);
      by intros n ?%list_elem_of_singleton.
Qed.

(** ** C7 *)

(** C7 (routing bypass): for a request whose method is not GET, or whose
    protocol does not start with "http", the fetch listener does not
    respond: it makes no call on the cache store or the network and leaves
    the storage as it is. *)
Theorem bypass_touches_nothing request s :
  method request ≠ "GET" ∨ startsWith "http" (protocol (url request)) = false →
  onFetch network origin request s = (PassThrough, s, []).
Proof.
  unfold onFetch. intros [Hm|Hp].
  - apply String.eqb_neq in Hm. by rewrite Hm.
  - rewrite Hp. by destruct (String.eqb (method request) "GET").
Qed.

End Strategies.

(** ** Concrete runs of the strategies *)

(** A hit, a miss answered by the network, and a miss with the network
    down. *)
Lemma cacheFirst_behaviour_witness :
  (cached (href (url surahs_data)) data_storage = Some surahs_json ∧
   result (cacheFirst net_down surahs_data data_storage) = Some surahs_json ∧
   fetches (events (cacheFirst net_down surahs_data data_storage)) = []) ∧
  (cached (href (url surahs_data)) [] = None ∧
   result (cacheFirst net_up surahs_data []) =
     Some (mkResponse 200 "https://hadiye.test/data/surahs.json") ∧
   entry CACHE_NAME (href (url surahs_data))
     (store (cacheFirst net_up surahs_data [])) =
     Some (mkResponse 200 "https://hadiye.test/data/surahs.json")) ∧
  result (cacheFirst net_down surahs_data []) = Some (mkResponse 503 "Offline").
Proof.
  pose proof (cacheFirst_behaviour net_down surahs_data data_storage) as H1.
  pose proof (cacheFirst_behaviour net_up surahs_data []) as H2.
  pose proof (cacheFirst_behaviour net_down surahs_data []) as H3.
  cbv zeta in H1, H2, H3.
  destruct H1 as (_ & Hhit & _).
  destruct H2 as (_ & _ & _ & Hok & _).
  destruct H3 as (_ & _ & _ & _ & _ & Hrej).
  split_and!.
  - reflexivity.
  - apply (Hhit surahs_json). reflexivity.
  - apply (Hhit surahs_json). reflexivity.
  - reflexivity.
  - apply Hok; [reflexivity..|discriminate].
  - apply Hok; [reflexivity..|discriminate].
  - apply Hrej; reflexivity.
Defined.

(** C4 as stated fails: a response with status 206 has a successful status
    and is returned, but the cache store refuses it and no copy is stored. *)
Lemma partial_content_is_not_cached :
  cached (href (url surahs_data)) [] = None ∧
  net_206 (href (url surahs_data)) = Resolved partial_content ∧
  ok partial_content = true ∧
  result (cacheFirst net_206 surahs_data []) = Some partial_content ∧
  entry CACHE_NAME (href (url surahs_data))
    (store (cacheFirst net_206 surahs_data [])) = None ∧
  cached (href (url surahs_data)) (store (cacheFirst net_206 surahs_data [])) = None.
Proof. by split_and!. Qed.

(** A 404 for a data file and for a page: returned, not stored. *)
Lemma error_status_returned_not_stored_witness :
  net_404 (href (url about_page)) = Resolved (mkResponse 404 "Not Found") ∧
  ok (mkResponse 404 "Not Found") = false ∧
  store (networkFirst net_404 site about_page old_storage) = old_storage ∧
  (cached (href (url missing_data)) old_storage = None →
   store (cacheFirst net_404 missing_data old_storage) = old_storage).
Proof.
  pose proof (error_status_returned_not_stored net_404 site about_page old_storage
                (mkResponse 404 "Not Found") eq_refl eq_refl) as ((_ & Hnf & _) & _).
  pose proof (error_status_returned_not_stored net_404 site missing_data old_storage
                (mkResponse 404 "Not Found") eq_refl eq_refl) as (_ & Hcf).
  split_and!; [reflexivity|reflexivity|exact Hnf|].
  intros E. by destruct (Hcf E) as (_ & ? & _).
Defined.

(** C3 as stated fails: a 404 from the network is returned but is in no
    generation afterwards, under either strategy. *)
Lemma error_status_is_not_cached :
  net_404 (href (url missing_data)) = Resolved (mkResponse 404 "Not Found") ∧
  ok (mkResponse 404 "Not Found") = false ∧
  result (cacheFirst net_404 missing_data []) = Some (mkResponse 404 "Not Found") ∧
  cached (href (url missing_data)) (store (cacheFirst net_404 missing_data [])) = None ∧
  result (networkFirst net_404 site about_page []) = Some (mkResponse 404 "Not Found") ∧
  cached (href (url about_page)) (store (networkFirst net_404 site about_page [])) = None.
Proof. by split_and!. Qed.

(** The revalidation of a script with the network down. *)
Lemma revalidation_failure_keeps_entry_witness :
  net_down (href (url main_script)) = Rejected ∧
  ∀ n k,
    entry n k (store (staleWhileRevalidate net_down main_script two_generations)) =
    entry n k two_generations.
Proof.
  split; [reflexivity|].
  pose proof (revalidation_failure_keeps_entry net_down main_script two_generations) as H.
  cbv zeta in H. destruct H as (H & _ & _).
  apply H. left. reflexivity.
Defined.

(** With the current generation alone, every read is a read of it. *)
Lemma strategies_scope_witness :
  storage_keys data_storage = [CACHE_NAME] ∧
  Forall (λ n, n = CACHE_NAME)
    (reads (events (cacheFirst net_down surahs_data data_storage))) ∧
  Forall (λ n, n = CACHE_NAME)
    (reads (events (networkFirst net_down site surahs_data data_storage))).
Proof.
  split; [reflexivity|].
  pose proof (strategies_scope net_down site surahs_data data_storage) as H.
  cbv zeta in H. destruct H as (_ & _ & _ & _ & H).
  apply H. reflexivity.
Defined.

(** C9 as stated fails: with the network down, a page that only the
    generation of an earlier version holds is read from that generation and
    served from it. *)
Lemma networkFirst_reads_old_generation :
  "hadiye-v0.9.0" ≠ CACHE_NAME ∧
  reads (events (networkFirst net_down site about_page old_storage)) =
    ["hadiye-v0.9.0"] ∧
  result (networkFirst net_down site about_page old_storage) = Some old_page ∧
  onFetch net_down site about_page old_storage =
    (RespondWith (Some old_page), old_storage,
     [EvFetch "https://hadiye.test/about";
      EvRead "hadiye-v0.9.0" "https://hadiye.test/about"]).
Proof. by split_and!. Qed.

(** A form submission and a request of a browser extension pass through. *)
Lemma bypass_touches_nothing_witness :
  (method form_post ≠ "GET" ∧
   onFetch net_up site form_post two_generations = (PassThrough, two_generations, [])) ∧
  (startsWith "http" (protocol (url extension_script)) = false ∧
   onFetch net_up site extension_script two_generations =
     (PassThrough, two_generations, [])).
Proof.
  split; split.
  - discriminate.
  - apply (bypass_touches_nothing net_up site form_post). left. discriminate.
  - reflexivity.
  - apply (bypass_touches_nothing net_up site extension_script). right. reflexivity.
Defined.

(** ** C2 *)

(** C2 (Network-First fallback), at an input where the code departs from
    it: after a first install and activation with the network down, a
    navigation to a page finds neither the page, nor the offline document,
    nor the root document in the cache; it is routed to [networkFirst],
    which resolves with [undefined] and not with the 503 response. *)
Theorem networkFirst_navigation_without_fallback :
  store (activate (store (install net_down site []))) = empty_generation ∧
  net_down (href (url about_page)) = Rejected ∧
  mode about_page = "navigate" ∧
  cached (href (url about_page)) empty_generation = None ∧
  cached (resolve site OFFLINE_URL) empty_generation = None ∧
  cached (resolve site "/") empty_generation = None ∧
  result (networkFirst net_down site about_page empty_generation) = None ∧
  result (networkFirst net_down site about_page empty_generation)
    ≠ Some offlineResponse ∧
  onFetch net_down site about_page empty_generation =
    (RespondWith None, empty_generation,
     [EvFetch "https://hadiye.test/about";
      EvRead CACHE_NAME "https://hadiye.test/about";
      EvRead CACHE_NAME "https://hadiye.test/offline.html";
      EvRead CACHE_NAME "https://hadiye.test/"]).
Proof. by split_and!. Qed.

(** ** C5 *)

(** C5 (Stale-While-Revalidate return value), at an input where the code
    departs from it: a script that is not in the cache, requested with the
    network down, is routed to [staleWhileRevalidate], which resolves with
    [undefined] and not with the 503 response. *)
Theorem staleWhileRevalidate_miss_offline :
  store (activate (store (install net_down site []))) = empty_generation ∧
  net_down (href (url main_script)) = Rejected ∧
  entry CACHE_NAME (href (url main_script)) empty_generation = None ∧
  result (staleWhileRevalidate net_down main_script empty_generation) = None ∧
  result (staleWhileRevalidate net_down main_script empty_generation)
    ≠ Some offlineResponse ∧
  onFetch net_down site main_script empty_generation =
    (RespondWith None, empty_generation,
     [EvOpen CACHE_NAME;
      EvRead CACHE_NAME "https://hadiye.test/js/main.js";
      EvFetch "https://hadiye.test/js/main.js"]).
Proof. by split_and!. Qed.

(** * Further properties of the worker *)

Section StoreMore.

Implicit Types (s : Storage) (n m k key : string) (c : Cache) (r : Response).

Lemma entry_put_other n m k k' r s :
  n ≠ m ∨ k' ≠ k → entry n k' (storage_put m k r s) = entry n k' s.
Proof.
  intros H. unfold entry. rewrite storage_put_get.
  destruct (String.eqb_spec n m) as [->|Hne]; [|done].
  destruct H as [?|H]; [done|].
  destruct (storage_get m s); simpl; [|done].
  by apply lookup_insert_ne.
Qed.

Lemma filter_name_eq m c s :
  wf s → storage_get m s = Some c →
  List.filter (λ p, String.eqb p.1 m) s = [(m, c)].
Proof.
  unfold wf, storage_keys.
  induction s as [|[n c'] s IH]; simpl; [done|].
  intros [Hnin Hnd]%NoDup_cons.
  destruct (String.eqb_spec n m) as [->|Hne]; simpl.
  - intros [= ->]. f_equal. by apply filter_name_absent.
  - by apply IH.
Qed.

Lemma storage_open_cons n c m s :
  storage_open m ((n, c) :: s) =
    if String.eqb n m then (n, c) :: s else (n, c) :: storage_open m s.
Proof.
  unfold storage_open. simpl.
  destruct (String.eqb n m); [done|]. by destruct (storage_get m s).
Qed.

Lemma cached_None key s :
  cached key s = None ↔ Forall (λ p, p.2 !! key = None) s.
Proof.
  unfold cached.
  induction s as [|[n c] s IH]; simpl; [done|].
  rewrite Forall_cons. simpl.
  destruct (c !! key) as [r|] eqn:E; simpl.
  - split; [done|]. by intros [? _].
  - destruct (storage_match key s) as [o t]. simpl in *.
    rewrite IH. tauto.
Qed.

Lemma cached_None_only_active key s :
  cached key s = None → only_active_holds key s.
Proof.
  rewrite cached_None. unfold only_active_holds. intros H.
  eapply Forall_impl; [exact H|]. by intros p Hp _.
Qed.

(** After a put into the generation of the version tag, [caches.match]
    answers with what was put, unless an older generation holds the key. *)
Lemma cached_after_put key r s :
  only_active_holds key s →
  cached key (storage_put CACHE_NAME key r (storage_open CACHE_NAME s)) = Some r.
Proof.
  unfold only_active_holds, cached.
  induction s as [|[n c] s IH]; intros Hs.
  - unfold storage_open. cbn [storage_get app storage_put].
    rewrite String.eqb_refl. cbn [storage_match].
    by rewrite lookup_insert_eq.
  - apply Forall_cons in Hs as [Hc Hs]. cbn [fst snd] in Hc.
    rewrite storage_open_cons.
    destruct (String.eqb_spec n CACHE_NAME) as [->|Hne].
    + cbn [storage_put]. rewrite String.eqb_refl. cbn [storage_match].
      by rewrite lookup_insert_eq.
    + cbn [storage_put].
      destruct (String.eqb_spec n CACHE_NAME); [done|].
      cbn [storage_match]. rewrite (Hc Hne).
      destruct (storage_match key _) as [o t]. cbn [fst] in *. by apply IH.
Qed.

Lemma all_ok_open m s : all_ok s → all_ok (storage_open m s).
Proof.
  unfold all_ok, storage_open. intros H.
  destruct (storage_get m s); [done|].
  apply Forall_app. split; [done|].
  apply Forall_singleton. simpl. apply map_Forall_empty.
Qed.

Lemma all_ok_put m k r s :
  ok r = true → all_ok s → all_ok (storage_put m k r s).
Proof.
  unfold all_ok. intros Hr.
  induction s as [|[n c] s IH]; simpl; [done|].
  intros [Hc Hs]%Forall_cons. simpl in Hc.
  destruct (String.eqb n m).
  - apply Forall_cons. split; [|done]. simpl. by apply map_Forall_insert_2.
  - apply Forall_cons. split; [done|]. by apply IH.
Qed.

Lemma all_ok_filter (f : string * Cache → bool) s :
  all_ok s → all_ok (List.filter f s).
Proof.
  unfold all_ok. induction s as [|p s IH]; simpl; [done|].
  intros [Hp Hs]%Forall_cons.
  destruct (f p); [apply Forall_cons; split; [done|]|]; by apply IH.
Qed.

Lemma all_ok_put_all m s l :
  Forall (λ kr, ok kr.2 = true) l → all_ok s → all_ok (put_all m s l).
Proof.
  unfold put_all. revert s.
  induction l as [|[k r] l IH]; intros s; simpl; [done|].
  intros [Hr Hl]%Forall_cons Hs. simpl in Hr.
  apply IH; [done|]. by apply all_ok_put.
Qed.

Lemma all_ok_cached k r s : all_ok s → cached k s = Some r → ok r = true.
Proof.
  unfold all_ok, cached.
  induction s as [|[n c] s IH]; simpl; [done|].
  intros [Hc Hs]%Forall_cons. simpl in Hc.
  destruct (c !! k) as [r'|] eqn:E; simpl.
  - intros [= ->]. by apply (Hc k).
  - destruct (storage_match k s) as [o t]. simpl in *. by apply IH.
Qed.

End StoreMore.

Section LifecycleMore.

Variable network : string → FetchResult.
Variable origin : string.

Implicit Types (s : Storage) (n m k key : string) (c : Cache) (r : Response).

Lemma accepted_Some x r :
  accepted x = Some r ↔ x = Resolved r ∧ ok r = true ∧ status r ≠ 206.
Proof.
  destruct x as [r'|]; simpl.
  - unfold partial.
    destruct (ok r') eqn:E, (Z.eqb_spec (status r') 206) as [Hp|Hp]; simpl; split;
      try done; try (by intros [= ->]);
      intros ([= ->] & ? & ?); congruence.
  - split; [done|]. by intros [? _].
Qed.

Lemma batch_zip_lookup keys rs k :
  Forall2 (λ k' r, accepted (network k') = Some r) keys rs →
  batch (zip keys rs) !! k =
    if decide (k ∈ keys) then accepted (network k) else None.
Proof.
  induction 1 as [|k0 r0 keys rs Hk0 Hall IH]; cbn [zip zip_with batch fst snd].
  - rewrite lookup_empty. by destruct (decide _) as [?%elem_of_nil|].
  - rewrite lookup_union, IH.
    destruct (decide (k ∈ keys)) as [Hin|Hnin].
    + rewrite decide_True by (apply elem_of_cons; by right).
      assert (is_Some (accepted (network k))) as [r Hr].
      { clear IH. induction Hall as [|k1 r1 keys rs Hk1 Hall IH].
        - by apply elem_of_nil in Hin.
        - apply elem_of_cons in Hin as [->|Hin]; eauto. }
      rewrite Hr. by destruct ({[k0 := r0]} !! k).
    + destruct (decide (k = k0)) as [->|Hne].
      * rewrite decide_True by (apply elem_of_cons; by left).
        by rewrite lookup_singleton_eq, Hk0.
      * rewrite decide_False by (by intros [?|?]%elem_of_cons).
        by rewrite lookup_singleton_ne.
Qed.

Lemma precache_accepts assets :
  ¬ precache_fails network origin assets →
  ∃ rs, Forall2 (λ k r, accepted (network k) = Some r) (resolve origin <$> assets) rs ∧
        mapM accepted (network <$> (resolve origin <$> assets)) = Some rs.
Proof.
  intros Hnf.
  destruct (mapM accepted (network <$> (resolve origin <$> assets))) as [rs|] eqn:E.
  - exists rs. split; [|done].
    apply mapM_Some in E. by apply Forall2_fmap_l in E.
  - by apply precache_fails_mapM in E.
Qed.

Lemma precache_resolved name assets s rs :
  mapM accepted (network <$> (resolve origin <$> assets)) = Some rs →
  precache network origin name assets s =
    (true,
     put_all name (storage_open name s) (zip (resolve origin <$> assets) rs),
     EvOpen name ::
       ((EvFetch <$> (resolve origin <$> assets)) ++
        (EvWrite name <$> (resolve origin <$> assets))) ++ [EvSkipWaiting] ++ []).
Proof.
  intros H.
  unfold precache, mbind, M_bind, caches_open, cache_addAll, skipWaiting.
  by rewrite H.
Qed.

Lemma precache_success name assets s :
  ¬ precache_fails network origin assets →
  let after := store (precache network origin name assets s) in
  (∀ u, u ∈ assets →
        ∃ r, network (resolve origin u) = Resolved r ∧ ok r = true ∧
             status r ≠ 206 ∧
             entry name (resolve origin u) after = Some r) ∧
  (∀ k, k ∉ resolve origin <$> assets → entry name k after = entry name k s) ∧
  (∀ n, n ≠ name → storage_get n after = storage_get n s) ∧
  EvSkipWaiting ∈ events (precache network origin name assets s).
Proof.
  intros (rs & Hall & Hm)%precache_accepts after. subst after.
  rewrite (precache_resolved _ _ _ _ Hm). unfold store, events. cbn [fst snd].
  assert (∀ k, entry name k
                 (put_all name (storage_open name s) (zip (resolve origin <$> assets) rs)) =
               if decide (k ∈ resolve origin <$> assets)
               then accepted (network k) else entry name k s) as Hentry.
  { intros k. unfold entry.
    rewrite put_all_get, String.eqb_refl, storage_open_get_same. simpl.
    rewrite lookup_union, (batch_zip_lookup _ _ _ Hall).
    destruct (decide _) as [Hin|Hnin].
    - assert (is_Some (accepted (network k))) as [r Hr].
      { apply list_elem_of_fmap in Hin as (u & -> & Hu).
        clear -Hall Hu. remember (resolve origin <$> assets) as keys eqn:Hk.
        revert assets Hk Hu.
        induction Hall as [|k0 r0 keys rs Hk0 Hall IH]; intros [|u0 assets] Hk Hu;
          simplify_eq/=; [by apply elem_of_nil in Hu|].
        apply elem_of_cons in Hu as [->|Hu]; eauto. }
      rewrite Hr. by destruct (default ∅ (storage_get name s) !! k).
    - destruct (storage_get name s) as [c|]; simpl.
      + by destruct (c !! k).
      + by rewrite lookup_empty. }
  split_and!.
  - intros u Hu. rewrite Hentry.
    rewrite decide_True by (apply list_elem_of_fmap; eauto).
    destruct (accepted (network (resolve origin u))) as [r|] eqn:Hr.
    + apply accepted_Some in Hr as (? & ? & ?). eauto 10.
    + assert (precache_fails network origin assets) as Hf by (by exists u).
      apply precache_fails_mapM in Hf. congruence.
  - intros k Hk. by rewrite Hentry, decide_False.
  - intros n Hne. rewrite put_all_get.
    destruct (String.eqb_spec n name); [done|]. by apply storage_open_get_other.
  - apply elem_of_cons. right. apply elem_of_app. right.
    apply elem_of_cons. by left.
Qed.

Lemma zip_accepted_ok keys rs :
  Forall2 (λ k r, accepted (network k) = Some r) keys rs →
  Forall (λ kr, ok kr.2 = true) (zip keys rs).
Proof.
  induction 1 as [|k0 r0 keys rs Hk0 Hall IH]; simpl; [done|].
  apply Forall_cons. split; [|done]. simpl.
  by apply accepted_Some in Hk0 as (_ & ? & _).
Qed.

Lemma install_all_ok s : all_ok s → all_ok (store (install network origin s)).
Proof.
  intros Hs. unfold install. rewrite precache_store.
  destruct (mapM _ _) as [rs|] eqn:E; [|by apply all_ok_open].
  apply all_ok_put_all; [|by apply all_ok_open].
  apply zip_accepted_ok. apply mapM_Some in E. by apply Forall2_fmap_l in E.
Qed.

Lemma activate_all_ok s : all_ok s → all_ok (store (activate s)).
Proof. intros Hs. rewrite activate_run. by apply all_ok_filter. Qed.

(** ** The install listener when every fetch succeeds *)

(** X1 (a successful precache): when no precache fetch fails, that is when
    every URL of the manifest resolves with an ok status other than 206,
    the install listener leaves, for every URL of the manifest, the
    response the network gave as its entry in the generation of the version
    tag; the other entries of that generation and the other
    generations are as before, and [skipWaiting] is called. *)
Theorem install_success_populates s :
  ¬ precache_fails network origin PRECACHE_ASSETS →
  let after := store (install network origin s) in
  (∀ u, u ∈ PRECACHE_ASSETS →
        ∃ r, network (resolve origin u) = Resolved r ∧ ok r = true ∧
             status r ≠ 206 ∧
             entry CACHE_NAME (resolve origin u) after = Some r) ∧
  (∀ k, k ∉ resolve origin <$> PRECACHE_ASSETS →
        entry CACHE_NAME k after = entry CACHE_NAME k s) ∧
  (∀ n, n ≠ CACHE_NAME → storage_get n after = storage_get n s) ∧
  EvSkipWaiting ∈ events (install network origin s).
Proof. apply precache_success. Qed.

(** ** Install followed by activate *)

(** X2 (a failed precache, then activation): when a precache fetch fails,
    the install listener still completes, and the activation that follows
    deletes every older generation: the storage is then the single
    generation of the version tag, holding what it held before the install
    (nothing, if it did not exist). *)
Theorem failed_install_then_activate s :
  wf s →
  precache_fails network origin PRECACHE_ASSETS →
  result (install network origin s) = true ∧
  store (activate (store (install network origin s))) =
    [(CACHE_NAME, default ∅ (storage_get CACHE_NAME s))].
Proof.
  intros Hwf Hf. unfold install.
  rewrite (precache_rejected _ _ _ _ _ Hf). unfold result, store. cbn [fst snd].
  split; [done|].
  rewrite activate_run. cbn [fst snd].
  apply filter_name_eq; [by apply storage_open_wf|].
  apply storage_open_get_same.
Qed.

(** X3 (activate is idempotent): a second run of the activate listener
    leaves the storage of the first run as it is and deletes nothing. *)
Theorem activate_idempotent s :
  store (activate (store (activate s))) = store (activate s) ∧
  writes (events (activate (store (activate s)))) = [].
Proof.
  rewrite !activate_run. unfold store, events. cbn [fst snd].
  assert (List.filter (λ p : string * Cache, String.eqb p.1 CACHE_NAME)
            (List.filter (λ p, String.eqb p.1 CACHE_NAME) s) =
          List.filter (λ p, String.eqb p.1 CACHE_NAME) s) as Hff.
  { induction s as [|[n c] s IH]; [done|]. cbn [List.filter fst].
    destruct (String.eqb n CACHE_NAME) eqn:E; [|done].
    cbn [List.filter fst]. by rewrite E, IH. }
  split; [done|].
  assert (List.filter (λ n, negb (String.eqb n CACHE_NAME))
            (storage_keys (List.filter (λ p, String.eqb p.1 CACHE_NAME) s)) = [])
    as ->.
  { unfold storage_keys. clear Hff.
    induction s as [|[n c] s IH]; [done|]. cbn [List.filter fst].
    destruct (String.eqb n CACHE_NAME) eqn:E; [|done].
    cbn [fmap list_fmap List.filter fst]. by rewrite E. }
  done.
Qed.

End LifecycleMore.

Section StrategiesMore.

Variable network : string → FetchResult.
Variable origin : string.

Implicit Types (s : Storage) (n m k key : string) (c r p : Response).
Implicit Types (request : Request).

(** The fetch listener either passes the request through or answers with
    the run of one of the three strategies. *)
Lemma onFetch_cases request s :
  let respond (x : option Response * Storage * list Event) :=
    (RespondWith x.1.1, x.1.2, x.2) in
  (method request ≠ "GET" ∨ startsWith "http" (protocol (url request)) = false) ∧
    onFetch network origin request s = (PassThrough, s, []) ∨
  (method request = "GET" ∧ startsWith "http" (protocol (url request)) = true) ∧
    (onFetch network origin request s = respond (cacheFirst network request s) ∨
     onFetch network origin request s =
       respond (staleWhileRevalidate network request s) ∨
     onFetch network origin request s =
       respond (networkFirst network origin request s)).
Proof.
  intros respond.
  destruct (String.eqb_spec (method request) "GET") as [Hm|Hm].
  2:{ left. split; [by left|]. unfold onFetch.
      apply String.eqb_neq in Hm. by rewrite Hm. }
  destruct (startsWith "http" (protocol (url request))) eqn:Hp.
  2:{ left. split; [by right|]. unfold onFetch.
      rewrite Hp. by destruct (String.eqb (method request) "GET"). }
  right. split; [done|].
  rewrite (onFetch_routes _ _ _ _ Hm Hp). cbv zeta.
  destruct (startsWith "/data/" _); [by left|].
  destruct (matchJsCss _); [by right; left|].
  destruct (_ || _); [by left|by right; right].
Qed.

(** ** X4 *)

(** X4 (what the fetch listener intercepts): the fetch listener leaves a
    request to the browser exactly when its method is not GET or its
    protocol does not start with "http"; every other request is answered
    through [respondWith]. *)
Theorem fetch_listener_intercepts_iff request s :
  result (onFetch network origin request s) = PassThrough ↔
  method request ≠ "GET" ∨ startsWith "http" (protocol (url request)) = false.
Proof.
  pose proof (onFetch_cases request s) as H. cbv zeta in H.
  destruct H as [[Hb ->]|[[Hm Hp] H]].
  - by split.
  - split.
    + by destruct H as [->|[->| ->]].
    + intros [?|?]; congruence.
Qed.

(** ** X5 *)

(** X5 (Network-First with the network down): when the fetch is rejected,
    [networkFirst] leaves the storage as it is and writes nothing.  It
    answers with the entry [caches.match] finds for the request; failing
    that, a request that is not a navigation gets the 503 "Offline"
    response, and a navigation gets the offline document if it is cached
    and otherwise whatever [caches.match] finds for the root document,
    which is nothing when that is not cached either. *)
Theorem networkFirst_offline_precedence request s :
  network (href (url request)) = Rejected →
  let run := networkFirst network origin request s in
  let key := href (url request) in
  store run = s ∧ writes (events run) = [] ∧ fetches (events run) = [key] ∧
  (∀ c, cached key s = Some c → result run = Some c) ∧
  (cached key s = None → mode request ≠ "navigate" →
   result run = Some (mkResponse 503 "Offline")) ∧
  (∀ p, cached key s = None → mode request = "navigate" →
        cached (resolve origin OFFLINE_URL) s = Some p → result run = Some p) ∧
  (cached key s = None → mode request = "navigate" →
   cached (resolve origin OFFLINE_URL) s = None →
   result run = cached (resolve origin "/") s).
Proof.
  intros Hn run key. subst run key.
  destruct (networkFirst_rejected network origin request s Hn) as (Hr & Hs & Hw & _).
  rewrite Hr. split_and!; try done.
  - rewrite (networkFirst_rejected_run _ _ _ _ Hn). cbv zeta.
    pose proof (storage_match_events (href (url request)) s) as (_ & Hf1 & _).
    pose proof (storage_match_events (resolve origin OFFLINE_URL) s) as (_ & Hf2 & _).
    pose proof (storage_match_events (resolve origin "/") s) as (_ & Hf3 & _).
    unfold events, fetches in *.
    destruct (storage_match (href (url request)) s).1; cbn [fst snd];
      [|destruct (String.eqb (mode request) "navigate"); cbn [fst snd];
        [destruct (storage_match (resolve origin OFFLINE_URL) s).1; cbn [fst snd]|]];
      cbn [omap list_omap fetched_from];
      rewrite ?omap_app, ?Hf1, ?Hf2, ?Hf3; done.
  - by intros c ->.
  - intros -> Hm%String.eqb_neq. by rewrite Hm.
  - intros p -> ->. rewrite String.eqb_refl. by intros ->.
  - intros -> ->. rewrite String.eqb_refl. by intros ->.
Qed.

(** ** X6 *)

(** X6 (what Stale-While-Revalidate answers): [staleWhileRevalidate] answers
    with the entry of the request in the generation of the version tag
    when there is one, whatever the network does; when there is none it
    answers with the response of the network, whatever its status, and with
    nothing when the fetch is rejected. *)
Theorem staleWhileRevalidate_answer request s :
  let key := href (url request) in
  let run := staleWhileRevalidate network request s in
  fetches (events run) = [key] ∧
  (∀ c, entry CACHE_NAME key s = Some c → result run = Some c) ∧
  (∀ r, entry CACHE_NAME key s = None → network key = Resolved r →
        result run = Some r) ∧
  (entry CACHE_NAME key s = None → network key = Rejected →
   result run = None).
Proof.
  intros key run. split.
  - subst key run. rewrite staleWhileRevalidate_run. cbv zeta.
    by destruct (network _) as [r|]; [destruct (ok r)|].
  - apply staleWhileRevalidate_result.
Qed.

(** ** X7 *)

(** X7 (stale now, fresh next time): when the request has an entry and the
    network answers with an ok response other than a 206,
    [staleWhileRevalidate] answers with the old entry, and the next call
    for the same request answers with the response of the network,
    whatever the network does then. *)
Theorem staleWhileRevalidate_stale_then_fresh request s c r :
  entry CACHE_NAME (href (url request)) s = Some c →
  network (href (url request)) = Resolved r →
  ok r = true →
  status r ≠ 206 →
  result (staleWhileRevalidate network request s) = Some c ∧
  ∀ network', result (staleWhileRevalidate network' request
                        (store (staleWhileRevalidate network request s))) = Some r.
Proof.
  intros Hc Hn Hok Hp%Z.eqb_neq. split.
  - pose proof (staleWhileRevalidate_result network request s) as H.
    cbv zeta in H. destruct H as (H & _). by apply H.
  - intros network'.
    pose proof (staleWhileRevalidate_result network' request
                  (store (staleWhileRevalidate network request s))) as H.
    cbv zeta in H. destruct H as (H & _). apply H.
    rewrite staleWhileRevalidate_run. cbv zeta. rewrite Hn, Hok.
    unfold partial. rewrite Hp.
    unfold store. cbn [fst snd andb negb]. apply entry_put_open.
Qed.

(** ** X8 *)

(** X8 (Cache-First asks the network once): when [caches.match] finds no
    entry and the network answers with an ok response other than a 206,
    [cacheFirst] returns it, and the next call for the same request returns the same response
    without a fetch and without changing the storage, whatever the network
    does then. *)
Theorem cacheFirst_asks_once request s r :
  cached (href (url request)) s = None →
  network (href (url request)) = Resolved r →
  ok r = true →
  status r ≠ 206 →
  let after := store (cacheFirst network request s) in
  result (cacheFirst network request s) = Some r ∧
  ∀ network',
    result (cacheFirst network' request after) = Some r ∧
    store (cacheFirst network' request after) = after ∧
    fetches (events (cacheFirst network' request after)) = [].
Proof.
  intros Hc Hn Hok Hp%Z.eqb_neq after. subst after.
  rewrite (cacheFirst_miss _ _ _ Hc). cbv zeta. rewrite Hn, Hok.
  unfold partial. rewrite Hp.
  unfold result, store, events. cbn [fst snd].
  split; [done|]. intros network'.
  assert (cached (href (url request))
            (storage_put CACHE_NAME (href (url request)) r
               (storage_open CACHE_NAME s)) = Some r) as Hhit
    by (by apply cached_after_put, cached_None_only_active).
  rewrite (cacheFirst_hit _ _ _ _ Hhit). cbn [fst snd].
  split_and!; [done..|].
  rewrite app_nil_r. apply storage_match_events.
Qed.

(** ** X9 *)

(** X9 (a page seen online is there offline): when no generation other than
    the one of the version tag holds the request and the network answers
    with an ok response other than a 206, [networkFirst] returns it, and a later call for the
    same request whose fetch is rejected returns that same response. *)
Theorem networkFirst_online_then_offline request s r :
  only_active_holds (href (url request)) s →
  network (href (url request)) = Resolved r →
  ok r = true →
  status r ≠ 206 →
  result (networkFirst network origin request s) = Some r ∧
  ∀ network',
    network' (href (url request)) = Rejected →
    result (networkFirst network' origin request
              (store (networkFirst network origin request s))) = Some r.
Proof.
  intros Hs Hn Hok Hp%Z.eqb_neq.
  rewrite (networkFirst_resolved _ _ _ _ _ Hn). cbv zeta. rewrite Hok.
  unfold partial. rewrite Hp.
  unfold result at 1, store. cbn [fst snd]. split; [done|].
  intros network' Hn'.
  destruct (networkFirst_rejected network' origin request
              (storage_put CACHE_NAME (href (url request)) r
                 (storage_open CACHE_NAME s)) Hn') as (-> & _).
  by rewrite cached_after_put.
Qed.

(** ** X10 *)

(** X10 (a strategy changes one entry at most): after any of the three
    strategies, every entry other than that of the request in the
    generation of the version tag is what it was before. *)
Theorem strategies_change_own_entry_only request s n k :
  n ≠ CACHE_NAME ∨ k ≠ href (url request) →
  entry n k (store (cacheFirst network request s)) = entry n k s ∧
  entry n k (store (networkFirst network origin request s)) = entry n k s ∧
  entry n k (store (staleWhileRevalidate network request s)) = entry n k s.
Proof.
  intros Hnk.
  assert (∀ r, entry n k (storage_put CACHE_NAME (href (url request)) r
                            (storage_open CACHE_NAME s)) = entry n k s) as Hput
    by (intros r; by rewrite entry_put_other, entry_open).
  split_and!.
  - destruct (cached (href (url request)) s) as [c|] eqn:E.
    + by rewrite (cacheFirst_hit _ _ _ _ E).
    + rewrite (cacheFirst_miss _ _ _ E). cbv zeta.
      destruct (network _) as [r|]; [destruct (ok r); [destruct (partial r)|]|];
        unfold store; cbn [fst snd]; try done;
        first [apply Hput|apply entry_open].
  - destruct (network (href (url request))) as [r|] eqn:Hn.
    + rewrite (networkFirst_resolved _ _ _ _ _ Hn). cbv zeta.
      destruct (ok r); [destruct (partial r)|];
        unfold store; cbn [fst snd]; try done;
        first [apply Hput|apply entry_open].
    + by destruct (networkFirst_rejected network origin request s Hn) as (_ & -> & _).
  - rewrite staleWhileRevalidate_run. cbv zeta.
    destruct (network _) as [r|]; [destruct (ok r); [destruct (partial r)|]|];
      unfold store; cbn [fst snd andb negb];
      first [apply Hput|apply entry_open].
Qed.

End StrategiesMore.

(** * The tests of the fetch listener on strings *)

Section StringTests.

Implicit Types (p s t a b : string).

Lemma string_app_length a b :
  String.length (a +:+ b) = (String.length a + String.length b)%nat.
Proof. induction a as [|x a IH]; simpl; [done|]. f_equal. apply IH. Qed.

Lemma prefix_spec p s : String.prefix p s = true ↔ ∃ t, s = p +:+ t.
Proof.
  revert s. induction p as [|x p IH]; intros s.
  - split; [|by destruct s]. intros _. by exists s.
  - destruct s as [|y s]; simpl.
    + split; [done|]. by intros [t ?].
    + destruct (Ascii.ascii_dec x y) as [->|Hne].
      * rewrite IH. split; intros [t Ht]; exists t.
        -- by rewrite Ht.
        -- change (String y s = String y (p +:+ t)) in Ht. congruence.
      * split; [done|]. intros [t Ht].
        change (String y s = String x (p +:+ t)) in Ht. congruence.
Qed.

Lemma includes_spec p s : includes p s = true ↔ ∃ a b, s = a +:+ p +:+ b.
Proof.
  induction s as [|y s IH]; cbn [includes].
  - rewrite orb_false_r, prefix_spec. split.
    + intros [t Ht]. by exists "", t.
    + intros (a & b & Hab). destruct a; [by exists b|done].
  - rewrite orb_true_iff, prefix_spec, IH. split.
    + intros [[t Ht]|(a & b & Hab)].
      * by exists "", t.
      * exists (String y a), b. by rewrite Hab.
    + intros (a & b & Hab). destruct a as [|x a].
      * left. by exists b.
      * right. exists a, b.
        change (String y s = String x (a +:+ p +:+ b)) in Hab. congruence.
Qed.

Lemma substring_all s : String.substring 0 (String.length s) s = s.
Proof. induction s as [|x s IH]; simpl; [done|]. f_equal. apply IH. Qed.

Lemma substring_app_skip a p :
  String.substring (String.length a) (String.length p) (a +:+ p) = p.
Proof. induction a as [|x a IH]; simpl; [apply substring_all|apply IH]. Qed.

Lemma substring_split s i :
  (i ≤ String.length s)%nat →
  s = String.substring 0 i s +:+ String.substring i (String.length s - i) s.
Proof.
  revert i. induction s as [|x s IH]; intros [|i] Hi; simpl in *; try lia.
  - done.
  - change (String x s = String x (String.substring 0 (String.length s) s)).
    by rewrite substring_all.
  - change (String x s =
            String x (String.substring 0 i s +:+
                      String.substring i (String.length s - i) s)).
    f_equal. apply IH. lia.
Qed.

Lemma endsWith_spec p s : endsWith p s = true ↔ ∃ a, s = a +:+ p.
Proof.
  unfold endsWith. rewrite andb_true_iff, Nat.leb_le, String.eqb_eq. split.
  - intros [Hle Hsub]. exists (String.substring 0 (String.length s - String.length p) s).
    pose proof (substring_split s (String.length s - String.length p)) as H.
    replace (String.length s - (String.length s - String.length p))%nat
      with (String.length p) in H by lia.
    rewrite Hsub in H. apply H. lia.
  - intros [a ->]. rewrite string_app_length. split; [lia|].
    replace (String.length a + String.length p - String.length p)%nat
      with (String.length a) by lia.
    apply substring_app_skip.
Qed.

(** X13 (the tests of the router on strings): the test for a static asset
    accepts exactly the paths that end in ".js" or in ".css", the test for
    a data asset exactly the paths that begin with "/data/", and the test
    for a trusted host exactly the host names that contain the given name. *)
Theorem router_tests_spec p s :
  (matchJsCss s = true ↔ ∃ a, s = a +:+ ".js" ∨ s = a +:+ ".css") ∧
  (startsWith p s = true ↔ ∃ t, s = p +:+ t) ∧
  (includes p s = true ↔ ∃ a b, s = a +:+ p +:+ b).
Proof.
  split_and!.
  - unfold matchJsCss. rewrite orb_true_iff, !endsWith_spec. split.
    + intros [[a ->]|[a ->]]; exists a; auto.
    + intros [a [->| ->]]; [left|right]; by exists a.
  - apply prefix_spec.
  - apply includes_spec.
Qed.

End StringTests.

(** * The worker as a whole *)

Section WorkerInvariants.

Variable network : string → FetchResult.
Variable origin : string.

Implicit Types (s : Storage) (n m k key : string) (c r p : Response).
Implicit Types (request : Request).

Lemma strategies_all_ok request s :
  all_ok s →
  all_ok (store (cacheFirst network request s)) ∧
  all_ok (store (networkFirst network origin request s)) ∧
  all_ok (store (staleWhileRevalidate network request s)).
Proof.
  intros Hs. split_and!.
  - destruct (cached (href (url request)) s) as [c|] eqn:E.
    + by rewrite (cacheFirst_hit _ _ _ _ E).
    + rewrite (cacheFirst_miss _ _ _ E). cbv zeta.
      destruct (network _) as [r|];
        [destruct (ok r) eqn:Hok; [destruct (partial r)|]|];
        unfold store; cbn [fst snd]; try done;
        try apply all_ok_put; try done; by apply all_ok_open.
  - destruct (network (href (url request))) as [r|] eqn:Hn.
    + rewrite (networkFirst_resolved _ _ _ _ _ Hn). cbv zeta.
      destruct (ok r) eqn:Hok; [destruct (partial r)|];
        unfold store; cbn [fst snd]; try done;
        try apply all_ok_put; try done; by apply all_ok_open.
    + by destruct (networkFirst_rejected network origin request s Hn) as (_ & -> & _).
  - rewrite staleWhileRevalidate_run. cbv zeta.
    destruct (network _) as [r|];
      [destruct (ok r) eqn:Hok; [destruct (partial r)|]|];
      unfold store; cbn [fst snd andb negb];
      try apply all_ok_put; try done; by apply all_ok_open.
Qed.

(** ** X11 *)

(** X11 (only ok responses are cached): if every response in the cache has
    an ok status, this is still so after the install listener, after the
    activate listener and after the fetch listener has handled a request,
    whatever the network answers; and every response that [caches.match]
    finds has an ok status.  In particular neither an error response of the
    network nor the 503 "Offline" response is ever stored. *)
Theorem cache_holds_only_ok_responses request s :
  all_ok s →
  all_ok (store (install network origin s)) ∧
  all_ok (store (activate s)) ∧
  all_ok (store (onFetch network origin request s)) ∧
  (∀ k r, cached k s = Some r → ok r = true).
Proof.
  intros Hs.
  destruct (strategies_all_ok request s Hs) as (Hcf & Hnf & Hswr).
  split_and!.
  - by apply install_all_ok.
  - by apply activate_all_ok.
  - pose proof (onFetch_cases network origin request s) as H. cbv zeta in H.
    by destruct H as [[_ ->]|[_ [->|[->| ->]]]].
  - intros k r. by apply all_ok_cached.
Qed.

(** ** X12 *)

(** X12 (the precached assets are there offline): after an install in
    which no precache fetch failed, followed by activation, a GET request
    over http(s) for a URL of the manifest whose fetch is rejected is
    answered by the fetch listener with the response that the install
    fetched for that URL, whichever strategy the request is routed to. *)
Theorem precached_assets_served_offline network' request s u :
  wf s →
  ¬ precache_fails network origin PRECACHE_ASSETS →
  u ∈ PRECACHE_ASSETS →
  href (url request) = resolve origin u →
  method request = "GET" →
  startsWith "http" (protocol (url request)) = true →
  network' (href (url request)) = Rejected →
  let installed := store (activate (store (install network origin s))) in
  ∃ r, network (resolve origin u) = Resolved r ∧
       result (onFetch network' origin request installed) = RespondWith (Some r).
Proof.
  intros Hwf Hnf Hu Hkey Hm Hp Hrej installed.
  pose proof (precache_success network origin CACHE_NAME PRECACHE_ASSETS s Hnf) as H.
  cbv zeta in H. fold (install network origin s) in H. destruct H as (Hall & _).
  destruct (Hall u Hu) as (r & Hr & Hok & _ & Hentry).
  exists r. split; [done|].
  (* the storage after activation is the generation of the tag alone *)
  destruct (storage_get CACHE_NAME (store (install network origin s)))
    as [c|] eqn:Hget; [|by unfold entry in Hentry; rewrite Hget in Hentry].
  assert (installed = [(CACHE_NAME, c)]) as ->.
  { subst installed. rewrite activate_run. unfold store at 1. cbn [fst snd].
    apply filter_name_eq; [|done].
    by apply (lifecycle_preserves_wf network origin s Hwf). }
  assert (c !! href (url request) = Some r) as Hc.
  { rewrite Hkey. unfold entry in Hentry. by rewrite Hget in Hentry. }
  assert (cached (href (url request)) [(CACHE_NAME, c)] = Some r) as Hcached.
  { unfold cached. cbn [storage_match]. by rewrite Hc. }
  assert (entry CACHE_NAME (href (url request)) [(CACHE_NAME, c)] = Some r)
    as Hentry'.
  { unfold entry. cbn [storage_get]. by rewrite String.eqb_refl. }
  pose proof (onFetch_cases network' origin request [(CACHE_NAME, c)]) as H.
  cbv zeta in H. destruct H as [[[?|?] _]|[_ [->|[->| ->]]]]; try congruence.
  - by rewrite (cacheFirst_hit _ _ _ _ Hcached).
  - pose proof (staleWhileRevalidate_result network' request [(CACHE_NAME, c)]) as H.
    cbv zeta in H. destruct H as (H & _). unfold result in *. cbn [fst snd].
    by rewrite (H r Hentry').
  - destruct (networkFirst_rejected network' origin request [(CACHE_NAME, c)] Hrej)
      as (H & _). unfold result in *. cbn [fst snd]. by rewrite H, Hcached.
Qed.

End WorkerInvariants.

(** * ramadan.js *)

Section RamadanFacts.

Import Ramadan.

Variable RAMADAN_START : Z.
Variable RAMADAN_END : Z.

Ltac unfold_units := unfold DAY, HOUR, MINUTE, SECOND, ceilDiv in *.

(** X15 (the countdown splits the remaining time): before the start of
    Ramadan the countdown has hours below 24, minutes and seconds below 60
    and no negative field, and its fields add up to the time that remains,
    rounded down to a whole second; from the start on every field is 0. *)
Theorem countdown_decomposes now :
  let c := getCountdown RAMADAN_START now in
  let diff := RAMADAN_START - now in
  (now < RAMADAN_START →
   0 ≤ days c ∧ 0 ≤ hours c < 24 ∧ 0 ≤ minutes c < 60 ∧ 0 ≤ seconds c < 60 ∧
   diff - 1000 < days c * DAY + hours c * HOUR + minutes c * MINUTE
                 + seconds c * SECOND ≤ diff) ∧
  (RAMADAN_START ≤ now → c = mkCountdown 0 0 0 0).
Proof.
  intros c diff. subst c diff. unfold getCountdown. split.
  - intros Hlt. destruct (Z.leb_spec RAMADAN_START now); [lia|].
    cbn [days hours minutes seconds]. unfold_units.
    rewrite !Z.rem_mod_nonneg by lia.
    Z.to_euclidean_division_equations. lia.
  - intros Hge. by destruct (Z.leb_spec RAMADAN_START now); [|lia].
Qed.

(** X16 (the day of Ramadan): when the first reading of the clock is
    outside Ramadan there is no current day.  When it is inside, the
    current day is between 1 and 30 for every later reading: it is [k] on
    the [k]-th period of 24 hours from the start, for [k] up to 30, and 30
    from then on. *)
Theorem current_day_range now1 now2 :
  let day := getCurrentRamadanDay RAMADAN_START RAMADAN_END now1 now2 in
  (isRamadan RAMADAN_START RAMADAN_END now1 = false → day = None) ∧
  (isRamadan RAMADAN_START RAMADAN_END now1 = true → now1 ≤ now2 →
   (∃ d, day = Some d ∧ 1 ≤ d ≤ 30) ∧
   (∀ k, 1 ≤ k ≤ 30 →
         RAMADAN_START + (k - 1) * DAY ≤ now2 < RAMADAN_START + k * DAY →
         day = Some k) ∧
   (RAMADAN_START + 30 * DAY ≤ now2 → day = Some 30)).
Proof.
  intros day. subst day. unfold getCurrentRamadanDay. split.
  - by intros ->.
  - intros Hin Hle. rewrite Hin. cbn [negb].
    unfold isRamadan in Hin. apply andb_true_iff in Hin as [Hs%Z.leb_le _].
    unfold_units. split_and!.
    + eexists. split; [done|].
      Z.to_euclidean_division_equations. lia.
    + intros k Hk Hwin. f_equal.
      Z.to_euclidean_division_equations. lia.
    + intros Hlate. f_equal.
      Z.to_euclidean_division_equations. lia.
Qed.

(** X17 (days until Ramadan): from the start of Ramadan on, the number of
    days until Ramadan is 0.  Before, it is at least 1 and is the remaining
    time rounded up to whole days, so it is the [days] field of the
    countdown when the remaining time is a whole number of days, and one
    more otherwise. *)
Theorem days_until_rounds_up now :
  let n := getDaysUntilRamadan RAMADAN_START now in
  let c := getCountdown RAMADAN_START now in
  (RAMADAN_START ≤ now → n = 0) ∧
  (now < RAMADAN_START →
   1 ≤ n ∧
   (n - 1) * DAY < RAMADAN_START - now ≤ n * DAY ∧
   ((RAMADAN_START - now) mod DAY = 0 → n = days c) ∧
   ((RAMADAN_START - now) mod DAY ≠ 0 → n = days c + 1)).
Proof.
  intros n c. subst n c. unfold getDaysUntilRamadan, getCountdown. split.
  - intros Hge. by destruct (Z.leb_spec RAMADAN_START now); [|lia].
  - intros Hlt. destruct (Z.leb_spec RAMADAN_START now); [lia|].
    cbn [days].
    split_and!; [| | |intros Hmod|intros Hmod]; unfold_units;
      Z.to_euclidean_division_equations; lia.
Qed.

(** X18 (the phase of the status): outside Ramadan the phase is "before".
    Inside, with the clock inside Ramadan at the second reading too, the
    phase is "mercy" during the first ten periods of 24 hours from the
    start, "forgiveness" during the next ten and "salvation" afterwards.
    If Ramadan ends between the first and the second reading, there is no
    current day and the phase is "mercy". *)
Theorem status_phase now1 now2 now3 now4 now5 :
  let st := getRamadanStatus RAMADAN_START RAMADAN_END now1 now2 now3 now4 now5 in
  let inside := isRamadan RAMADAN_START RAMADAN_END in
  (inside now1 = false → phase st = "before") ∧
  (inside now1 = true → inside now2 = true → RAMADAN_START ≤ now3 →
   (now3 < RAMADAN_START + 10 * DAY → phase st = "mercy") ∧
   (RAMADAN_START + 10 * DAY ≤ now3 < RAMADAN_START + 20 * DAY →
    phase st = "forgiveness") ∧
   (RAMADAN_START + 20 * DAY ≤ now3 → phase st = "salvation")) ∧
  (inside now1 = true → inside now2 = false →
   currentDay st = None ∧ phase st = "mercy").
Proof.
  intros st inside. subst st inside.
  unfold getRamadanStatus, getCurrentRamadanDay. cbn [phase currentDay].
  split_and!.
  - by intros ->.
  - intros -> -> Hs. cbn [negb dayLeq]. unfold_units.
    split_and!; intros Hwin.
    + destruct (Z.leb_spec (Z.min ((now3 - RAMADAN_START) / (1000 * 60 * 60 * 24) + 1) 30) 10)
        as [_|Hgt]; [done|].
      exfalso. revert Hgt. Z.to_euclidean_division_equations. lia.
    + destruct (Z.leb_spec (Z.min ((now3 - RAMADAN_START) / (1000 * 60 * 60 * 24) + 1) 30) 10)
        as [Hle|_].
      { exfalso. revert Hle. Z.to_euclidean_division_equations. lia. }
      destruct (Z.leb_spec (Z.min ((now3 - RAMADAN_START) / (1000 * 60 * 60 * 24) + 1) 30) 20)
        as [_|Hgt]; [done|].
      exfalso. revert Hgt. Z.to_euclidean_division_equations. lia.
    + destruct (Z.leb_spec (Z.min ((now3 - RAMADAN_START) / (1000 * 60 * 60 * 24) + 1) 30) 10)
        as [Hle|_].
      { exfalso. revert Hle. Z.to_euclidean_division_equations. lia. }
      destruct (Z.leb_spec (Z.min ((now3 - RAMADAN_START) / (1000 * 60 * 60 * 24) + 1) 30) 20)
        as [Hle|_]; [|done].
      exfalso. revert Hle. Z.to_euclidean_division_equations. lia.
  - by intros -> ->.
Qed.

(** X19 (after Ramadan): once every reading of the clock is past the end of
    Ramadan, the status is the one of the time before Ramadan with the
    countdown at zero: not in Ramadan, no current day, 0 days until
    Ramadan, phase "before". *)
Theorem status_after_ramadan now1 now2 now3 now4 now5 :
  RAMADAN_START ≤ RAMADAN_END →
  RAMADAN_END < now1 → RAMADAN_END < now2 → RAMADAN_END < now4 →
  RAMADAN_END < now5 →
  getRamadanStatus RAMADAN_START RAMADAN_END now1 now2 now3 now4 now5 =
    mkStatus false None 0 (mkCountdown 0 0 0 0) "before" 30.
Proof.
  intros Hse H1 H2 H4 H5.
  unfold getRamadanStatus, getCurrentRamadanDay, getCountdown,
    getDaysUntilRamadan, isRamadan.
  destruct (Z.leb_spec now1 RAMADAN_END); [lia|].
  destruct (Z.leb_spec now2 RAMADAN_END); [lia|].
  destruct (Z.leb_spec RAMADAN_START now4); [|lia].
  destruct (Z.leb_spec RAMADAN_START now5); [|lia].
  by rewrite !andb_false_r.
Qed.

End RamadanFacts.

(** * tasbiix.js *)

Section TasbiixFacts.

Import Tasbiix.

Implicit Types (w : World) (ops : list Op).

Lemma saveState_state w : state (saveState w) = state w.
Proof. unfold saveState. destruct (writable w); reflexivity. Qed.

Lemma saveState_writable w : writable (saveState w) = writable w.
Proof. unfold saveState. destruct (writable w) eqn:E; cbn; congruence. Qed.

Lemma saveState_saved w :
  saved (saveState w) = if writable w then Some (state w) else saved w.
Proof. unfold saveState. destruct (writable w); reflexivity. Qed.

Lemma step_writable w o : writable (step w o) = writable w.
Proof.
  destruct o; unfold step, increment, resetCallback, reset, setTarget, setDhikr;
    cbv zeta; cbn [fst]; rewrite saveState_writable; reflexivity.
Qed.

Lemma step_saved w o :
  saved (step w o) = if writable w then Some (state (step w o)) else saved w.
Proof.
  destruct o; unfold step, increment, resetCallback, reset, setTarget, setDhikr;
    cbv zeta; cbn [fst]; rewrite saveState_saved, saveState_state; reflexivity.
Qed.

Lemma roundDouble_exact n : - 2 ^ 53 ≤ n ≤ 2 ^ 53 → roundDouble n = n.
Proof.
  change (2 ^ 53) with 9007199254740992. intros Hn. unfold roundDouble.
  change (2 ^ 53) with 9007199254740992. cbv zeta.
  destruct (Z.ltb_spec (Z.abs n) 9007199254740992) as [|Hge]; [reflexivity|].
  assert (n = 9007199254740992 ∨ n = - 9007199254740992) as [-> | ->] by lia;
    reflexivity.
Qed.

Lemma plusOne_exact x : - 2 ^ 53 ≤ x < 2 ^ 53 → plusOne x = x + 1.
Proof. intros Hx. unfold plusOne. apply roundDouble_exact. lia. Qed.

Lemma step_totalToday w o :
  (is_increment o = true → - 2 ^ 53 ≤ totalToday (state w) < 2 ^ 53) →
  totalToday (state (step w o)) =
    totalToday (state w) + (if is_increment o then 1 else 0) ∧
  lastReset (state (step w o)) = lastReset (state w).
Proof.
  intros Hb.
  destruct o; unfold step, increment, resetCallback, reset, setTarget, setDhikr;
    cbv zeta; cbn [fst]; rewrite saveState_state;
    cbn [totalToday lastReset state with_state with_count is_increment];
    (split; [|reflexivity]); try lia.
  apply plusOne_exact. by apply Hb.
Qed.

Lemma run_writable ops w : writable (run ops w) = writable w.
Proof.
  unfold run. revert w.
  induction ops as [|o ops IH]; intros w; cbn [foldl]; [reflexivity|].
  by rewrite IH, step_writable.
Qed.

(** X20 (the total of the day counts the presses): after any sequence of
    increments, timeouts, resets and changes of target or dhikr, the total
    of the day is what it was plus the number of increments, as long as
    that sum does not exceed 2^53 (beyond it a double no longer counts by
    one); no operation lowers it, and the date of the last reset is
    unchanged. *)
Theorem total_counts_increments ops w :
  - 2 ^ 53 ≤ totalToday (state w) →
  totalToday (state w) + Z.of_nat (length (List.filter is_increment ops)) ≤ 2 ^ 53 →
  totalToday (state (run ops w)) =
    totalToday (state w) + Z.of_nat (length (List.filter is_increment ops)) ∧
  lastReset (state (run ops w)) = lastReset (state w).
Proof.
  unfold run. revert w.
  induction ops as [|o ops IH]; intros w Hlo Hhi; cbn [foldl List.filter] in *.
  - split; [simpl; lia|done].
  - assert (is_increment o = true → - 2 ^ 53 ≤ totalToday (state w) < 2 ^ 53) as Hb.
    { intros Ho. rewrite Ho in Hhi. cbn [length] in Hhi. lia. }
    destruct (step_totalToday w o Hb) as [Ht Hl].
    destruct (IH (step w o)) as [-> ->].
    + rewrite Ht. destruct (is_increment o); lia.
    + rewrite Ht. destruct (is_increment o); cbn [length] in Hhi; lia.
    + rewrite Ht, Hl. split; [|done].
      destruct (is_increment o); cbn [length]; lia.
Qed.

(** X21 (saving and loading): when [localStorage] accepts writes, after any
    non-empty sequence of operations the stored item is the current state,
    so loading it on the day of the last reset gives back that state, and
    loading it on another day gives it back with the count at 0 and the
    date of the last reset renewed; the target, the dhikr and the total of
    the day are kept.  When [localStorage] refuses writes the stored item
    is never changed. *)
Theorem save_then_load ops w today1 today2 :
  let w' := run ops w in
  let st := state w' in
  (writable w = true → ops ≠ [] →
   saved w' = Some st ∧
   (lastReset st = today1 → state (loadState today1 today2 w') = st) ∧
   (lastReset st ≠ today1 →
    state (loadState today1 today2 w') =
      mkState 0 (target st) (dhikr st) (totalToday st) today2)) ∧
  (writable w = false → saved w' = saved w).
Proof.
  intros w' st. subst w' st. split.
  - intros Hw Hne.
    assert (saved (run ops w) = Some (state (run ops w))) as Hs.
    { destruct ops as [|o ops' _] using rev_ind; [done|].
      unfold run. rewrite foldl_app. cbn [foldl].
      rewrite step_saved. fold (run ops' w). by rewrite run_writable, Hw. }
    split; [done|]. unfold loadState. rewrite Hs. cbn [with_state state].
    split.
    + intros ->. by rewrite String.eqb_refl.
    + intros Hd%String.eqb_neq. by rewrite Hd.
  - unfold run. revert w.
    induction ops as [|o ops' IH]; intros w0 Hw; cbn [foldl]; [reflexivity|].
    rewrite IH by (by rewrite step_writable).
    by rewrite step_saved, Hw.
Qed.

(** X22 (the counter counts modulo the target): with a positive target of
    at most 2^53 and the count below it, and the total of the day below
    2^53 in magnitude, a press whose timeout runs before the next press
    leaves the count at the successor modulo the target, hence again below
    the target, adds one to the total of the day and leaves no timeout
    pending. *)
Theorem press_counts_modulo w :
  0 < target (state w) ≤ 2 ^ 53 →
  0 ≤ count (state w) < target (state w) →
  - 2 ^ 53 ≤ totalToday (state w) < 2 ^ 53 →
  let w' := press w in
  count (state w') = (count (state w) + 1) mod target (state w) ∧
  0 ≤ count (state w') < target (state w') ∧
  target (state w') = target (state w) ∧
  totalToday (state w') = totalToday (state w) + 1 ∧
  timers w' = timers w.
Proof.
  intros Ht Hc Htot w'. subst w'. unfold press, increment.
  cbn [count target].
  rewrite !plusOne_exact by lia.
  destruct (Z.leb_spec (target (state w)) (count (state w) + 1)) as [Hr|Hr];
    unfold resetCallback;
    rewrite ?saveState_state; unfold saveState;
    destruct (writable w); cbn; split_and!; try lia; try done.
  all: try (assert (count (state w) + 1 = target (state w)) as -> by lia;
            by rewrite Z.mod_same by lia).
  all: by rewrite Z.mod_small by lia.
Qed.

End TasbiixFacts.

(** * The control listeners *)

(** X14 (the control listeners leave the cache alone): the message listener
    and the sync listener never change the storage and make no call on the
    cache store or the network; the message listener calls [skipWaiting]
    exactly when the message carries the type "SKIP_WAITING", and does
    nothing for any other message. *)
Theorem control_listeners_leave_cache_alone (data : MessageData) (tag : string)
    (s : Storage) :
  store (onMessage data s) = s ∧
  store (onSync tag s) = s ∧
  events (onSync tag s) = [] ∧
  (events (onMessage data s) = [EvSkipWaiting] ↔ data = Data (Some "SKIP_WAITING")) ∧
  (data ≠ Data (Some "SKIP_WAITING") → events (onMessage data s) = []).
Proof.
  unfold onMessage, onSync. split_and!.
  - destruct data as [|[type|]]; try done. by destruct (String.eqb type _).
  - by destruct (String.eqb tag _).
  - by destruct (String.eqb tag _).
  - destruct data as [|[type|]]; try done.
    destruct (String.eqb_spec type "SKIP_WAITING") as [->|Hne]; [done|].
    split; [done|]. intros [= ?]. done.
  - destruct data as [|[type|]]; try done.
    destruct (String.eqb_spec type "SKIP_WAITING") as [->|Hne]; done.
Qed.

(** * Concrete runs for the further properties *)

Lemma net_up_succeeds : ¬ precache_fails net_up site PRECACHE_ASSETS.
Proof. intros (u & _ & H). discriminate H. Qed.

Lemma control_listeners_leave_cache_alone_witness :
  Data (Some "skip_waiting") ≠ Data (Some "SKIP_WAITING") ∧
  events (onMessage (Data (Some "skip_waiting")) old_storage) = [].
Proof.
  split; [discriminate|].
  apply (control_listeners_leave_cache_alone (Data (Some "skip_waiting")) "").
  discriminate.
Defined.

Lemma install_success_populates_witness :
  ¬ precache_fails net_up site PRECACHE_ASSETS ∧
  (∃ r, net_up (resolve site "/js/main.js") = Resolved r ∧ ok r = true ∧
        status r ≠ 206 ∧
        entry CACHE_NAME (resolve site "/js/main.js")
          (store (install net_up site old_storage)) = Some r) ∧
  EvSkipWaiting ∈ events (install net_up site old_storage).
Proof.
  pose proof (install_success_populates net_up site old_storage net_up_succeeds) as H.
  cbv zeta in H. destruct H as (Hall & _ & _ & Hskip).
  split_and!; [exact net_up_succeeds| |exact Hskip].
  apply Hall. apply (bool_decide_unpack _). vm_compute. reflexivity.
Defined.

Lemma failed_install_then_activate_witness :
  wf old_storage ∧
  precache_fails net_down site PRECACHE_ASSETS ∧
  store (activate (store (install net_down site old_storage))) = [(CACHE_NAME, ∅)].
Proof.
  assert (wf old_storage) as Hwf
    by (apply (bool_decide_unpack _); vm_compute; reflexivity).
  split_and!; [exact Hwf|exact net_down_fails|].
  apply (failed_install_then_activate net_down site old_storage Hwf net_down_fails).
Defined.

Lemma networkFirst_offline_precedence_witness :
  net_down (href (url about_page)) = Rejected ∧
  cached (href (url about_page)) old_storage = Some old_page ∧
  result (networkFirst net_down site about_page old_storage) = Some old_page ∧
  store (networkFirst net_down site about_page old_storage) = old_storage.
Proof.
  pose proof (networkFirst_offline_precedence net_down site about_page old_storage
                eq_refl) as H.
  cbv zeta in H. destruct H as (Hs & _ & _ & Hc & _).
  split_and!; [reflexivity|reflexivity| |exact Hs].
  apply Hc. reflexivity.
Defined.

Lemma staleWhileRevalidate_answer_witness :
  entry CACHE_NAME (href (url surahs_data)) data_storage = Some surahs_json ∧
  result (staleWhileRevalidate net_404 surahs_data data_storage) = Some surahs_json ∧
  entry CACHE_NAME (href (url main_script)) data_storage = None ∧
  result (staleWhileRevalidate net_404 main_script data_storage) =
    Some (mkResponse 404 "Not Found").
Proof.
  pose proof (staleWhileRevalidate_answer net_404 surahs_data data_storage) as H1.
  pose proof (staleWhileRevalidate_answer net_404 main_script data_storage) as H2.
  cbv zeta in H1, H2.
  destruct H1 as (_ & Hhit & _). destruct H2 as (_ & _ & Hmiss & _).
  split_and!; [reflexivity| |reflexivity|].
  - apply Hhit. reflexivity.
  - apply Hmiss; reflexivity.
Defined.

Lemma staleWhileRevalidate_stale_then_fresh_witness :
  entry CACHE_NAME (href (url surahs_data)) data_storage = Some surahs_json ∧
  net_up (href (url surahs_data)) =
    Resolved (mkResponse 200 "https://hadiye.test/data/surahs.json") ∧
  result (staleWhileRevalidate net_up surahs_data data_storage) = Some surahs_json ∧
  result (staleWhileRevalidate net_down surahs_data
            (store (staleWhileRevalidate net_up surahs_data data_storage))) =
    Some (mkResponse 200 "https://hadiye.test/data/surahs.json").
Proof.
  pose proof (staleWhileRevalidate_stale_then_fresh net_up surahs_data data_storage
                surahs_json (mkResponse 200 "https://hadiye.test/data/surahs.json")
                eq_refl eq_refl eq_refl ltac:(discriminate)) as [H1 H2].
  split_and!; [reflexivity|reflexivity|exact H1|apply H2].
Defined.

Lemma cacheFirst_asks_once_witness :
  cached (href (url surahs_data)) [] = None ∧
  result (cacheFirst net_up surahs_data []) =
    Some (mkResponse 200 "https://hadiye.test/data/surahs.json") ∧
  fetches (events (cacheFirst net_down surahs_data
                     (store (cacheFirst net_up surahs_data [])))) = [].
Proof.
  pose proof (cacheFirst_asks_once net_up surahs_data []
                (mkResponse 200 "https://hadiye.test/data/surahs.json")
                eq_refl eq_refl eq_refl ltac:(discriminate)) as H.
  cbv zeta in H. destruct H as [H1 H2].
  split_and!; [reflexivity|exact H1|].
  by destruct (H2 net_down) as (_ & _ & ?).
Defined.

Lemma networkFirst_online_then_offline_witness :
  only_active_holds (href (url about_page)) [] ∧
  result (networkFirst net_down site about_page
            (store (networkFirst net_up site about_page []))) =
    Some (mkResponse 200 "https://hadiye.test/about").
Proof.
  assert (only_active_holds (href (url about_page)) []) as Hs by apply Forall_nil_2.
  split; [exact Hs|].
  pose proof (networkFirst_online_then_offline net_up site about_page []
                (mkResponse 200 "https://hadiye.test/about")
                Hs eq_refl eq_refl ltac:(discriminate)) as [_ H].
  apply H. reflexivity.
Defined.

Lemma strategies_change_own_entry_only_witness :
  "hadiye-v0.9.0" ≠ CACHE_NAME ∧
  entry "hadiye-v0.9.0" "https://hadiye.test/about"
    (store (networkFirst net_up site about_page old_storage)) = Some old_page.
Proof.
  split; [discriminate|].
  pose proof (strategies_change_own_entry_only net_up site about_page old_storage
                "hadiye-v0.9.0" "https://hadiye.test/about") as H.
  destruct H as (_ & H & _); [left; discriminate|].
  rewrite H. reflexivity.
Defined.

Lemma cache_holds_only_ok_responses_witness :
  all_ok data_storage ∧
  all_ok (store (onFetch net_404 site missing_data data_storage)).
Proof.
  assert (all_ok data_storage) as Hs.
  { apply Forall_cons. split; [|apply Forall_nil_2].
    apply map_Forall_singleton. reflexivity. }
  split; [exact Hs|].
  by destruct (cache_holds_only_ok_responses net_404 site missing_data data_storage Hs)
    as (_ & _ & ? & _).
Defined.

Lemma precached_assets_served_offline_witness :
  wf [] ∧
  ¬ precache_fails net_up site PRECACHE_ASSETS ∧
  net_down (href (url main_script)) = Rejected ∧
  ∃ r, net_up (resolve site "/js/main.js") = Resolved r ∧
       result (onFetch net_down site main_script
                 (store (activate (store (install net_up site []))))) =
         RespondWith (Some r).
Proof.
  assert (wf []) as Hwf by apply NoDup_nil_2.
  split_and!; [exact Hwf|exact net_up_succeeds|reflexivity|].
  apply (precached_assets_served_offline net_up site net_down main_script []
           "/js/main.js" Hwf net_up_succeeds).
  - apply (bool_decide_unpack _). vm_compute. reflexivity.
  - reflexivity.
  - reflexivity.
  - reflexivity.
  - reflexivity.
Defined.

(** One day, one hour, one minute and one second before the start. *)
Lemma countdown_decomposes_witness :
  1771282739000 < 1771372800000 ∧
  Ramadan.getCountdown 1771372800000 1771282739000 = Ramadan.mkCountdown 1 1 1 1 ∧
  Ramadan.hours (Ramadan.getCountdown 1771372800000 1771282739000) < 24.
Proof.
  pose proof (countdown_decomposes 1771372800000 1771282739000) as H.
  cbv zeta in H. destruct H as [H _].
  split; [lia|]. split; [reflexivity|].
  by destruct (H ltac:(lia)) as (_ & [_ ?] & _).
Defined.

(** Thirty-six hours into Ramadan: the second day. *)
Lemma current_day_range_witness :
  Ramadan.isRamadan 1771372800000 1773964799000 1771502400000 = true ∧
  Ramadan.getCurrentRamadanDay 1771372800000 1773964799000
    1771502400000 1771502400000 = Some 2.
Proof.
  pose proof (current_day_range 1771372800000 1773964799000
                1771502400000 1771502400000) as H.
  cbv zeta in H. destruct H as [_ H].
  split; [reflexivity|].
  destruct (H eq_refl ltac:(lia)) as (_ & Hk & _).
  apply (Hk 2); [lia|]. unfold Ramadan.DAY. lia.
Defined.

Lemma days_until_rounds_up_witness :
  1771282739000 < 1771372800000 ∧
  1 ≤ Ramadan.getDaysUntilRamadan 1771372800000 1771282739000.
Proof.
  pose proof (days_until_rounds_up 1771372800000 1771282739000) as H.
  cbv zeta in H. destruct H as [_ H].
  split; [lia|]. apply H. lia.
Defined.

Lemma status_phase_witness :
  Ramadan.isRamadan 1771372800000 1773964799000 1771502400000 = true ∧
  Ramadan.phase
    (Ramadan.getRamadanStatus 1771372800000 1773964799000
       1771502400000 1771502400000 1771502400000 1771502400000 1771502400000) =
    "mercy".
Proof.
  pose proof (status_phase 1771372800000 1773964799000
                1771502400000 1771502400000 1771502400000 1771502400000
                1771502400000) as H.
  cbv zeta in H. destruct H as (_ & H & _).
  split; [reflexivity|].
  destruct (H eq_refl eq_refl ltac:(lia)) as (Hm & _).
  apply Hm. unfold Ramadan.DAY. lia.
Defined.

Lemma status_after_ramadan_witness :
  1771372800000 ≤ 1773964799000 ∧
  1773964799000 < 1774000000000 ∧
  Ramadan.getRamadanStatus 1771372800000 1773964799000
    1774000000000 1774000000000 1774000000000 1774000000000 1774000000000 =
    Ramadan.mkStatus false None 0 (Ramadan.mkCountdown 0 0 0 0) "before" 30.
Proof.
  split_and!; [lia|lia|].
  apply status_after_ramadan; lia.
Defined.

Lemma save_then_load_witness :
  Tasbiix.state
    (Tasbiix.loadState "Tue Nov 03 2026" "Tue Nov 03 2026"
       (Tasbiix.run [Tasbiix.Increment; Tasbiix.Increment]
          (Tasbiix.mkWorld (Tasbiix.mkState 0 33 "Subhanallah" 0 "Mon Nov 02 2026")
             None true 0))) =
    Tasbiix.mkState 0 33 "Subhanallah" 2 "Tue Nov 03 2026".
Proof.
  pose proof (save_then_load [Tasbiix.Increment; Tasbiix.Increment]
                (Tasbiix.mkWorld (Tasbiix.mkState 0 33 "Subhanallah" 0 "Mon Nov 02 2026")
                   None true 0)
                "Tue Nov 03 2026" "Tue Nov 03 2026") as H.
  cbv zeta in H. destruct H as [H _].
  destruct (H eq_refl ltac:(discriminate)) as (_ & _ & Hnew).
  rewrite Hnew; [reflexivity|discriminate].
Defined.

Lemma press_counts_modulo_witness :
  Tasbiix.count
    (Tasbiix.state
       (Tasbiix.press
          (Tasbiix.mkWorld (Tasbiix.mkState 32 33 "Subhanallah" 32 "Mon Nov 02 2026")
             None true 0))) = 0.
Proof.
  pose proof (press_counts_modulo
                (Tasbiix.mkWorld (Tasbiix.mkState 32 33 "Subhanallah" 32 "Mon Nov 02 2026")
                   None true 0)) as H.
  cbn [Tasbiix.state Tasbiix.count Tasbiix.target Tasbiix.totalToday] in H.
  change (2 ^ 53) with 9007199254740992 in H.
  destruct (H ltac:(lia) ltac:(lia) ltac:(lia)) as (Hc & _).
  rewrite Hc. reflexivity.
Defined.

(** Two presses, a change of target and a reset: the total of the day is 2. *)
Lemma total_counts_increments_witness :
  Tasbiix.totalToday
    (Tasbiix.state
       (Tasbiix.run
          [Tasbiix.Increment; Tasbiix.SetTarget 99; Tasbiix.Increment; Tasbiix.Reset]
          (Tasbiix.mkWorld (Tasbiix.mkState 0 33 "Subhanallah" 0 "Mon Nov 02 2026")
             None true 0))) = 2.
Proof.
  pose proof (total_counts_increments
                [Tasbiix.Increment; Tasbiix.SetTarget 99; Tasbiix.Increment; Tasbiix.Reset]
                (Tasbiix.mkWorld (Tasbiix.mkState 0 33 "Subhanallah" 0 "Mon Nov 02 2026")
                   None true 0)) as H.
  cbn [Tasbiix.state Tasbiix.totalToday List.filter Tasbiix.is_increment length] in H.
  change (2 ^ 53) with 9007199254740992 in H.
  destruct (H ltac:(lia) ltac:(lia)) as (Ht & _).
  rewrite Ht. reflexivity.
Defined.
